(** * rollup-plugin-asset-build-size-compare: a shallow embedding

    The plugin measures the (compressed) size of the artifacts of a Rollup
    build, compares them with the sizes of the previous build and keeps a
    history of snapshots in a JSON file.  This development embeds
    [src/rollup-plugin-asset-build-size-compare.js] function by function and
    proves the properties its specification states about it.

    Modelling conventions.
    - JavaScript numbers that occur are byte lengths, timestamps and their
      differences; they are exact integers and are modelled by [Z].
    - A plain JS object used as a map is an association list in insertion
      order with unique keys: [Object.keys] enumerates it in that order.
      This is how JS treats the keys that [plain_name] accepts: file names
      that are neither canonical array indices (which JS would enumerate
      first) nor names of [Object.prototype] members (which JS would find
      on every object).  Statements about maps taken as given only rely on
      the order their keys have; a statement about the order of the keys of
      a map that the code builds carries [plain_name] as a hypothesis.
    - Buffers are lists of bytes; the [code] of a chunk (a JS string) stands
      for its UTF-8 bytes, which is what [Buffer.byteLength] and [zlib]
      measure.
    - [glob], [minimatch], [zlib], [fs] and [Date.now] are external
      collaborators: they are the fields of the record [Env].  The history
      file and the console are an explicit world state threaded through a
      state and error monad; an [async] function that rejects is a
      computation returning [Err].  [generateBundle] does not await the
      [outputSizes] it starts: it returns the rest of that call as a
      computation still to be run. *)

From Stdlib Require Import ZArith List String Bool Lia Permutation Sorted.
Import ListNotations.

Local Open Scope string_scope.
Local Open Scope list_scope.

(** ** JavaScript values and objects *)

Module Js.

(** The values that end up in a size map: a number, [null] (a file that
    could not be read) or [undefined] (an index past the end of an
    array). *)
Inductive value : Type :=
| undefined
| null
| num (n : Z).

Definition truthy (v : value) : bool :=
  match v with
  | num n => negb (n =? 0)%Z
  | _ => false
  end.

(** [v || 0], as a number. *)
Definition or_zero (v : value) : Z :=
  if truthy v then match v with num n => n | _ => 0%Z end else 0%Z.

(** Own properties in insertion order. *)
Definition object : Type := list (string * value).

Definition keys (o : object) : list string := map fst o.

(** [o[k]]: [undefined] when [k] is not a property. *)
Fixpoint get (o : object) (k : string) : value :=
  match o with
  | [] => undefined
  | (k', v) :: rest => if String.eqb k' k then v else get rest k
  end.

(** [o[k] = v]: an existing property keeps its position. *)
Fixpoint set (o : object) (k : string) (v : value) : object :=
  match o with
  | [] => [(k, v)]
  | (k', v') :: rest =>
      if String.eqb k' k then (k', v) :: rest else (k', v') :: set rest k v
  end.

Definition has (o : object) (k : string) : bool :=
  existsb (String.eqb k) (keys o).

(** [arr.indexOf(item)], counting from [i]; [-1] when absent. *)
Fixpoint indexOf_from (i : nat) (arr : list string) (item : string) : Z :=
  match arr with
  | [] => (-1)%Z
  | x :: rest =>
      if String.eqb x item then Z.of_nat i else indexOf_from (S i) rest item
  end.

Definition indexOf (arr : list string) (item : string) : Z :=
  indexOf_from 0 arr item.

(** [arr.filter(f)] where the callback also receives the index. *)
Fixpoint filter_from {A : Type} (f : A -> nat -> bool) (i : nat) (l : list A)
  : list A :=
  match l with
  | [] => []
  | x :: rest =>
      if f x i then x :: filter_from f (S i) rest else filter_from f (S i) rest
  end.

Definition filter_indexed {A : Type} (f : A -> nat -> list A -> bool)
  (arr : list A) : list A :=
  filter_from (fun x i => f x i arr) 0 arr.

End Js.

(** ** Data model *)

Inductive Compression : Type := none | gzip | brotli.

Record FileDelta : Type := mkFileDelta {
  filename : string;
  previous : Z;
  size : Z;
  diff : Z
}.

Record Snapshot : Type := mkSnapshot {
  timestamp : Z;
  compressionType : Compression;
  compressionLevel : Z;
  files : list FileDelta
}.

(** The [item] objects of [outputSizes]; the texts built with [chalk] and
    [prettyBytes] are cosmetic and left out, the colour class is kept. *)
Inductive Color : Type := red | yellow | cyan | green.

Record Item : Type := mkItem {
  name : string;
  sizeBefore : Z;
  item_size : Z;
  delta : Z;
  color : Color
}.

(** ** [__utils] *)

Module utils.

(** [names.reduce((map, name, i) => { map[name] = values[i]; ... }, {})] *)
Fixpoint toMap_from (i : nat) (names : list string) (values : list Js.value)
  (map : Js.object) : Js.object :=
  match names with
  | [] => map
  | name :: rest =>
      toMap_from (S i) rest values
        (Js.set map name (nth i values Js.undefined))
  end.

Definition toMap (names : list string) (values : list Js.value) : Js.object :=
  toMap_from 0 names values [].

(** [arr.indexOf(item) === index] *)
Definition dedupe (item : string) (index : nat) (arr : list string) : bool :=
  (Js.indexOf arr item =? Z.of_nat index)%Z.

(** The callback of the [reduce] in [toFileMap]: [if (file.size)] keeps
    the records of nonzero size. *)
Definition toFileMap_step (result : Js.object) (file : FileDelta) : Js.object :=
  if negb (size file =? 0)%Z
  then Js.set result (filename file) (Js.num (size file))
  else result.

(** [files.reduce((result, file) => { ... }, {})] *)
Definition toFileMap (files : list FileDelta) : Js.object :=
  fold_left toFileMap_step files [].

End utils.

(** ** The comparison of [outputSizes] and the records of [save] *)

(** [[...Object.keys(sizesBefore), ...Object.keys(sizesAfter)]
      .filter(__utils.dedupe)] *)
Definition unique_filenames (sizesBefore sizesAfter : Js.object) : list string :=
  Js.filter_indexed utils.dedupe (Js.keys sizesBefore ++ Js.keys sizesAfter).

Definition color_of (size : Z) : Color :=
  if (size >? 75 * 1024)%Z then red
  else if (size >? 40 * 1024)%Z then yellow
  else if (size >? 20 * 1024)%Z then cyan
  else green.

(** One iteration of the [for (const name of files)] loop. *)
Definition item_of (sizesBefore sizesAfter : Js.object) (name : string) : Item :=
  let size := Js.or_zero (Js.get sizesAfter name) in
  let sizeBefore := Js.or_zero (Js.get sizesBefore name) in
  let delta := (size - sizeBefore)%Z in
  mkItem name sizeBefore size delta (color_of size).

Definition items_of (sizesBefore sizesAfter : Js.object) : list Item :=
  map (item_of sizesBefore sizesAfter) (unique_filenames sizesBefore sizesAfter).

(** [files.map((file) => ({ filename: file.name, ... }))] in [save]. *)
Definition delta_of_item (file : Item) : FileDelta :=
  mkFileDelta (name file) (sizeBefore file) (item_size file)
    (item_size file - sizeBefore file)%Z.

Definition stats_of (now : Z) (c : Compression) (level : Z) (items : list Item)
  : Snapshot :=
  mkSnapshot now c level (map delta_of_item items).

(** The reconciliation step: the loop of [outputSizes] followed by the
    mapping of [save]. *)
Definition reconcile (before after : Js.object) : list FileDelta :=
  map delta_of_item (items_of before after).

(** ** Options, collaborators and the state of one plugin instance *)

Definition buffer : Type := list Byte.byte.

(** [Buffer.byteLength] *)
Definition byteLength (b : buffer) : Z := Z.of_nat (List.length b).

Module Options.

Record t : Type := mk {
  compression : Compression;
  compressionLevel : Z;
  pattern : string;
  exclude : string;
  filename : string;
  writeFile : bool;
  columnWidth : Z;
  (** the undocumented [options.save] callback is present *)
  save : bool
}.

Definition filename_of (c : Compression) : string :=
  match c with
  | none => ".rollup-plugin-asset-build-size-compare-data-none.json"
  | gzip => ".rollup-plugin-asset-build-size-compare-data-gzip.json"
  | brotli => ".rollup-plugin-asset-build-size-compare-data-brotli.json"
  end.

(** [__defaultOptions], with [options.filename] already defaulted. *)
Definition default : t :=
  mk gzip 6 "**/*.{mjs,js,jsx,css,html}" "" (filename_of gzip) true 20 false.

End Options.

Inductive error : Type :=
| BrotliNotSupported   (* Error('Brotli not supported in this Node version.') *)
| TypeError            (* a property of, or the byte length of, [undefined] *)
| ZlibError            (* zlib rejects the level: a [RangeError] from gzip,
                          an initialization error from brotli *)
| IOError.             (* [fs.readJSON] failed or did not yield an array *)

Inductive result (A : Type) : Type :=
| Ok (a : A)
| Err (e : error).
Arguments Ok {A} a.
Arguments Err {A} e.

(** What the plugin calls but does not define. *)
Record Env : Type := mkEnv {
  (** [glob(pattern, { cwd, ignore })] *)
  glob : string -> string -> string -> list string;
  (** [minimatch(path, pattern)], the predicate [minimatch.filter(pattern)] *)
  minimatch : string -> string -> bool;
  (** [fs.promises.readFile(path.join(cwd, file))]; [None] when it rejects *)
  readFile : string -> string -> option buffer;
  (** [zlib.gzip(source, { level })]; [None] when zlib refuses the level *)
  zlib_gzip : Z -> buffer -> option buffer;
  (** [zlib.brotliCompress], [None] in a Node version without it; the
      function itself yields [None] when zlib refuses the quality *)
  zlib_brotliCompress : option (Z -> buffer -> option buffer);
  path_resolve : string -> string;
  path_dirname : string -> string;
  (** the value of [Date.now()] during this build *)
  now : Z
}.

Inductive FileType : Type := chunk | asset.

(** An entry of Rollup's [OutputBundle]; an asset has no [code]. *)
Record OutputFile : Type := mkOutputFile {
  type : FileType;
  fileName : string;
  code : option buffer
}.

Definition OutputBundle : Type := list (string * OutputFile).

Record OutputOptions : Type := mkOutputOptions {
  dir : option string;
  file : option string
}.

(** The history file as [fs.readJSON] sees it. *)
Inductive FileContent : Type :=
| Absent
| Unparseable
| Stored (data : list Snapshot).

Inductive Event : Type :=
| EnsureFile
| WriteJSON (data : list Snapshot)
| SaveHook (stats : Snapshot)
| ConsoleLog (report : list Item)
| ConsoleError (e : error).

(** The history file, what was done to it and to the console, and the
    variables [generateBundle] shares with the functions it calls. *)
Record State : Type := mkState {
  history : FileContent;
  trace : list Event;
  pattern : string;
  initialSizes : Js.object;
  isSingleChunk : bool
}.

Definition initial (o : Options.t) (h : FileContent) : State :=
  mkState h [] (Options.pattern o) [] false.

(** ** A state and error monad for the asynchronous functions *)

Definition M (A : Type) : Type := State -> result A * State.

Definition ret {A : Type} (a : A) : M A := fun s => (Ok a, s).

Definition throw {A : Type} (e : error) : M A := fun s => (Err e, s).

Definition bind {A B : Type} (m : M A) (k : A -> M B) : M B :=
  fun s =>
    match m s with
    | (Ok a, s') => k a s'
    | (Err e, s') => (Err e, s')
    end.

Definition catch {A : Type} (m : M A) (handler : error -> M A) : M A :=
  fun s =>
    match m s with
    | (Ok a, s') => (Ok a, s')
    | (Err e, s') => handler e s'
    end.

Definition lift {A : Type} (r : result A) : M A := fun s => (r, s).

Definition get_state : M State := fun s => (Ok s, s).

Definition emit (e : Event) : M unit :=
  fun s =>
    (Ok tt,
     mkState (history s) (trace s ++ [e]) (pattern s) (initialSizes s)
       (isSingleChunk s)).

Definition set_history (h : FileContent) : M unit :=
  fun s =>
    (Ok tt, mkState h (trace s) (pattern s) (initialSizes s) (isSingleChunk s)).

Definition set_pattern (p : string) : M unit :=
  fun s =>
    (Ok tt,
     mkState (history s) (trace s) p (initialSizes s) (isSingleChunk s)).

Definition set_initialSizes (m : Js.object) : M unit :=
  fun s =>
    (Ok tt, mkState (history s) (trace s) (pattern s) m (isSingleChunk s)).

Definition set_isSingleChunk (b : bool) : M unit :=
  fun s =>
    (Ok tt, mkState (history s) (trace s) (pattern s) (initialSizes s) b).

Declare Scope js_scope.
Delimit Scope js_scope with js.
Notation "x <- m ;; k" := (bind m (fun x => k))
  (at level 61, m at next level, right associativity) : js_scope.
Notation "m ;; k" := (bind m (fun _ => k))
  (at level 61, right associativity) : js_scope.
Local Open Scope js_scope.

(** [Promise.all]: rejects as soon as one of the promises does.  Which
    rejection comes first in time is not modelled: the first in the order of
    the list is taken. *)
Fixpoint Promise_all {A : Type} (l : list (result A)) : result (list A) :=
  match l with
  | [] => Ok []
  | Err e :: _ => Err e
  | Ok a :: rest =>
      match Promise_all rest with
      | Ok r => Ok (a :: r)
      | Err e => Err e
      end
  end.

(** ** The functions of [bundleSize] *)

(** [oldStats.sort((a, b) => b.timestamp - a.timestamp)]: the sort is
    stable, so a snapshot stays in front of the later ones of equal
    timestamp. *)
Fixpoint insert_desc (a : Snapshot) (sorted : list Snapshot) : list Snapshot :=
  match sorted with
  | [] => [a]
  | b :: rest =>
      if (timestamp b >? timestamp a)%Z
      then b :: insert_desc a rest
      else a :: b :: rest
  end.

Definition sort_desc (l : list Snapshot) : list Snapshot :=
  fold_right insert_desc [] l.

(** Newest first: every snapshot is at least as recent as those after it. *)
Definition newest_first (l : list Snapshot) : Prop :=
  StronglySorted (fun a b => (timestamp b <= timestamp a)%Z) l.

(** [fs.readJSON(filename)] for a file holding an array of snapshots. *)
Definition readJSON : M (list Snapshot) :=
  s <- get_state ;;
  match history s with
  | Stored data => ret data
  | Absent | Unparseable => throw IOError
  end.

Definition readFromDisk (o : Options.t) : M (list Snapshot) :=
  catch
    (if negb (Options.writeFile o) then ret []
     else oldStats <- readJSON ;; ret (sort_desc oldStats))
    (fun _ => ret []).

(** What zlib compresses: it takes an [undefined] source for an empty
    input. *)
Definition zlib_input (source : option buffer) : buffer :=
  match source with
  | Some src => src
  | None => []
  end.

Definition zlib_size (compressed : option buffer) : result Z :=
  match compressed with
  | Some c => Ok (byteLength c)
  | None => Err ZlibError
  end.

Definition getCompressedSize (E : Env) (o : Options.t) (source : option buffer)
  : result Z :=
  match Options.compression o with
  | gzip =>
      zlib_size (zlib_gzip E (Options.compressionLevel o) (zlib_input source))
  | brotli =>
      match zlib_brotliCompress E with
      | None => Err BrotliNotSupported
      | Some br =>
          zlib_size (br (Options.compressionLevel o) (zlib_input source))
      end
  | none =>
      (* [Buffer.byteLength(undefined)] throws *)
      match source with
      | Some src => Ok (byteLength src)
      | None => Err TypeError
      end
  end.

Definition filterFiles (E : Env) (o : Options.t) (pattern : string)
  (files : list string) : list string :=
  let isMatched := fun file => minimatch E file pattern in
  let isExcluded :=
    if String.eqb (Options.exclude o) "" then fun _ => false
    else fun file => minimatch E file (Options.exclude o) in
  filter (fun file => isMatched file && negb (isExcluded file)) files.

Definition map_result {A B : Type} (f : A -> B) (r : result A) : result B :=
  match r with
  | Ok a => Ok (f a)
  | Err e => Err e
  end.

(** The callback of [getSizes]: a failed read yields [null]. *)
Definition measure_file (E : Env) (o : Options.t) (cwd file : string)
  : result Js.value :=
  match readFile E cwd file with
  | None => Ok Js.null
  | Some source => map_result Js.num (getCompressedSize E o (Some source))
  end.

Definition getSizes (E : Env) (o : Options.t) (cwd : string) : M Js.object :=
  s <- get_state ;;
  let files := glob E (pattern s) cwd (Options.exclude o) in
  sizes <- lift (Promise_all
                   (map (measure_file E o cwd)
                      (filterFiles E o (pattern s) files))) ;;
  ret (utils.toMap files sizes).

Definition load (E : Env) (o : Options.t) (outputPath : string) : M Js.object :=
  data <- readFromDisk o ;;
  match data with
  | first :: _ => ret (utils.toFileMap (files first))
  | [] => getSizes E o outputPath
  end.

Definition ensureFile : M unit :=
  s <- get_state ;;
  emit EnsureFile ;;
  match history s with
  | Absent => set_history Unparseable
  | _ => ret tt
  end.

Definition writeJSON (data : list Snapshot) : M unit :=
  emit (WriteJSON data) ;; set_history (Stored data).

Definition writeToDisk (o : Options.t) (stats : Snapshot) : M unit :=
  if existsb (fun file => negb (diff file =? 0)%Z) (files stats) then
    data <- readFromDisk o ;;
    let data := stats :: data in
    if Options.writeFile o then ensureFile ;; writeJSON data else ret tt
  else ret tt.

Definition save (E : Env) (o : Options.t) (items : list Item) : M unit :=
  let stats :=
    stats_of (now E) (Options.compression o) (Options.compressionLevel o) items in
  (if Options.save o then emit (SaveHook stats) else ret tt) ;;
  writeToDisk o stats.

(** [assets[name].code]; reading [.code] of [undefined] throws. *)
Fixpoint bundle_get (assets : OutputBundle) (name : string) : option OutputFile :=
  match assets with
  | [] => None
  | (k, f) :: rest => if String.eqb k name then Some f else bundle_get rest name
  end.

Definition measure_asset (E : Env) (o : Options.t) (assets : OutputBundle)
  (name : string) : result Js.value :=
  match bundle_get assets name with
  | None => Err TypeError
  | Some f => map_result Js.num (getCompressedSize E o (code f))
  end.

(** [outputSizes] after its first [await]: [sizesBefore] was read from
    [initialSizes] when the call started, the pattern is read now. *)
Definition outputSizes_rest (E : Env) (o : Options.t) (assets : OutputBundle)
  (sizesBefore : Js.object) : M unit :=
  s <- get_state ;;
  let assetNames := filterFiles E o (pattern s) (map fst assets) in
  sizes <- lift (Promise_all (map (measure_asset E o assets) assetNames)) ;;
  let sizesAfter := utils.toMap assetNames sizes in
  let items := items_of sizesBefore sizesAfter in
  save E o items ;;
  match items with
  | [] => ret tt
  | _ => emit (ConsoleLog items)
  end.

(** A call of [outputSizes] run to its end. *)
Definition outputSizes (E : Env) (o : Options.t) (assets : OutputBundle) : M unit :=
  s <- get_state ;;
  outputSizes_rest E o assets (initialSizes s).

(** [outputOptions.dir ? path.resolve(dir) : path.dirname(file)] *)
Definition output_path (E : Env) (outputOptions : OutputOptions) : result string :=
  match dir outputOptions with
  | Some d =>
      if String.eqb d "" then
        match file outputOptions with
        | Some f => Ok (path_dirname E f)
        | None => Err TypeError
        end
      else Ok (path_resolve E d)
  | None =>
      match file outputOptions with
      | Some f => Ok (path_dirname E f)
      | None => Err TypeError
      end
  end.

Definition chunks_of (bundle : OutputBundle) : list OutputFile :=
  filter (fun outputFile => match type outputFile with chunk => true | asset => false end)
    (map snd bundle).

(** [outputSizes(bundle).catch(console.error)]: the call that
    [generateBundle] starts and leaves running. *)
Definition detached_outputSizes (E : Env) (o : Options.t)
  (bundle : OutputBundle) (sizesBefore : Js.object) : M unit :=
  catch (outputSizes_rest E o bundle sizesBefore)
    (fun e => emit (ConsoleError e)).

(** The hook up to the point where it resolves.  Its value is the call of
    [outputSizes] that it started without awaiting it. *)
Definition generateBundle (E : Env) (o : Options.t)
  (outputOptions : OutputOptions) (bundle : OutputBundle) : M (M unit) :=
  _path <- lift (output_path E outputOptions) ;;
  let chunks := chunks_of bundle in
  set_isSingleChunk (Nat.eqb (List.length chunks) 1) ;;
  match chunks with
  | [only] => set_pattern (fileName only)
  | _ => ret tt
  end ;;
  sizes <- load E o _path ;;
  set_initialSizes sizes ;;
  ret (detached_outputSizes E o bundle sizes).

(** A build that nothing interleaves with: the hook, then the call it left
    running, to its end. *)
Definition build (E : Env) (o : Options.t) (outputOptions : OutputOptions)
  (bundle : OutputBundle) : M unit :=
  task <- generateBundle E o outputOptions bundle ;;
  task.

(** A promise that resolved. *)
Definition resolved {A : Type} (r : result A) : bool :=
  match r with
  | Ok _ => true
  | Err _ => false
  end.

(** There is nothing to load from: persistence is off, or the history file
    is absent, unparseable or holds an empty array. *)
Definition no_history (o : Options.t) (h : FileContent) : Prop :=
  Options.writeFile o = false \/ (forall data, h = Stored data -> data = []).

(** ** File operations in a trace *)

Definition is_write (e : Event) : bool :=
  match e with
  | EnsureFile | WriteJSON _ => true
  | _ => false
  end.

Definition writes (tr : list Event) : list Event := filter is_write tr.

(** A computation that neither changes the history file nor adds a file
    operation to the trace. *)
Definition no_write {A : Type} (m : M A) : Prop :=
  forall s,
    history (snd (m s)) = history s
    /\ writes (trace (snd (m s))) = writes (trace s).

(** A computation that does not assign the variables [pattern] and
    [isSingleChunk] of the closure. *)
Definition keeps_closure {A : Type} (m : M A) : Prop :=
  forall s,
    pattern (snd (m s)) = pattern s
    /\ isSingleChunk (snd (m s)) = isSingleChunk s.

(** ** Sample builds

    Concrete size maps, environments and states on which the statements
    below are exercised. *)

(** The end-to-end scenario of the specification. *)
Definition sample_before : Js.object := [("a.js", Js.num 1000)].

Definition sample_after : Js.object :=
  [("a.js", Js.num 1200); ("b.js", Js.num 500)].

(** Records of a stored snapshot, one of them of a file that became empty. *)
Definition sample_files : list FileDelta :=
  [mkFileDelta "a.js" 1000 1200 200;
   mkFileDelta "b.js" 500 0 (-500);
   mkFileDelta "c.js" 0 7 7].

(** A stored history that is not in newest-first order. *)
Definition sample_history : list Snapshot :=
  [mkSnapshot 1700000000000 gzip 6 [mkFileDelta "a.js" 0 900 900];
   mkSnapshot 1700000005000 gzip 6 sample_files;
   mkSnapshot 1700000002000 gzip 6 [mkFileDelta "a.js" 900 1000 100]].

(** Two files in the output directory, no compression library at work:
    [gzip] is taken to return its input and [brotliCompress] is absent. *)
Definition sample_readFile (cwd file : string) : option buffer :=
  if String.eqb file "a.js" then Some [Byte.x61; Byte.x3b]
  else if String.eqb file "b.js" then Some [Byte.x62; Byte.x3d; Byte.x31]
  else None.

Definition sample_env : Env :=
  mkEnv (fun pattern cwd ignore => ["a.js"; "b.js"])
    (fun path pattern => true)
    sample_readFile
    (fun level source => Some source)
    None
    (fun d => d) (fun f => "dist")
    1700000009000.

Definition sample_state : State :=
  initial Options.default (Stored sample_history).

(** A snapshot of a build that changed nothing and one of a build that grew
    [a.js]. *)
Definition unchanged_stats : Snapshot :=
  mkSnapshot 1700000009000 gzip 6 [mkFileDelta "a.js" 1200 1200 0].

Definition changed_stats : Snapshot :=
  mkSnapshot 1700000009000 gzip 6 [mkFileDelta "a.js" 1200 1300 100].

(** The default options with persistence switched off. *)
Definition options_off : Options.t :=
  Options.mk gzip 6 "**/*.{mjs,js,jsx,css,html}" "" (Options.filename_of gzip)
    false 20 false.

(** A build of two chunks. *)
Definition sample_bundle : OutputBundle :=
  [("a.js", mkOutputFile chunk "a.js" (Some [Byte.x61; Byte.x3b; Byte.x3b]));
   ("b.js", mkOutputFile chunk "b.js" (Some [Byte.x62; Byte.x3d; Byte.x31]))].

(** The single chunk of the specification's example, with a hashed name. *)
Definition hashed_chunk : OutputFile :=
  mkOutputFile chunk "bundle.a1b2c3.js" (Some [Byte.x61; Byte.x3b]).

(** No compression: sizes are byte lengths. *)
Definition options_none : Options.t :=
  Options.mk none 6 "**/*.{mjs,js,jsx,css,html}" "" (Options.filename_of none)
    true 20 false.

(** An environment in which [glob] and [minimatch] disagree on [a.js]:
    [glob] reads a pattern literally where [minimatch.filter] reads a
    leading [!] or [#] as a negation or a comment. *)
Definition env_disagree : Env :=
  mkEnv (fun pattern cwd ignore => ["a.js"; "b.js"])
    (fun path pattern => negb (String.eqb path "a.js"))
    sample_readFile
    (fun level source => Some source)
    None
    (fun d => d) (fun f => "dist")
    1700000009000.

(** An output directory from which [gone.js] disappears between the glob
    and the read. *)
Definition env_gone : Env :=
  mkEnv (fun pattern cwd ignore => ["a.js"; "gone.js"])
    (fun path pattern => true)
    sample_readFile
    (fun level source => Some source)
    None
    (fun d => d) (fun f => "dist")
    1700000009000.

(** Brotli requested; [sample_env] has no [brotliCompress]. *)
Definition options_brotli : Options.t :=
  Options.mk brotli 6 "**/*.{mjs,js,jsx,css,html}" ""
    (Options.filename_of brotli) true 20 false.

(** A single chunk whose file name holds glob characters, and an
    environment in which [minimatch] reads [[id]] as a character class, as
    it does: the pattern [pages/[id].js] matches [pages/i.js] and
    [pages/d.js], not [pages/[id].js].  The output directory is empty. *)
Definition bracket_bundle : OutputBundle :=
  [("pages/[id].js",
    mkOutputFile chunk "pages/[id].js" (Some [Byte.x61; Byte.x3b]))].

Definition env_brackets : Env :=
  mkEnv (fun pattern cwd ignore => [])
    (fun path pattern =>
       if String.eqb pattern "pages/[id].js"
       then String.eqb path "pages/i.js" || String.eqb path "pages/d.js"
       else String.eqb path pattern)
    (fun cwd file => None)
    (fun level source => Some source)
    None
    (fun d => d) (fun f => "dist")
    1700000009000.

(** The state in which the hook leaves a build of the single chunk
    [hashed_chunk]. *)
Definition hashed_build : State :=
  snd (generateBundle sample_env Options.default
         (mkOutputOptions (Some "dist") None)
         [("bundle.a1b2c3.js", hashed_chunk)] sample_state).

(** A build with a chunk and a style sheet emitted as an asset. *)
Definition bundle_with_asset : OutputBundle :=
  [("a.js", mkOutputFile chunk "a.js" (Some [Byte.x61; Byte.x3b]));
   ("style.css", mkOutputFile asset "style.css" None)].

(** ** Plain names

    The names for which a JS object behaves as the association list of this
    model: a name made of digits only may be an array index, which JS
    enumerates before the other keys, and a member of [Object.prototype] is
    found on every object. *)

Definition is_digit (c : Ascii.ascii) : bool :=
  (48 <=? Ascii.nat_of_ascii c)%nat && (Ascii.nat_of_ascii c <=? 57)%nat.

Fixpoint all_digits (k : string) : bool :=
  match k with
  | EmptyString => true
  | String c rest => is_digit c && all_digits rest
  end.

Definition Object_prototype_names : list string :=
  ["__proto__"; "constructor"; "hasOwnProperty"; "isPrototypeOf";
   "propertyIsEnumerable"; "toLocaleString"; "toString"; "valueOf";
   "__defineGetter__"; "__defineSetter__"; "__lookupGetter__";
   "__lookupSetter__"].

Definition plain_name (k : string) : bool :=
  negb (all_digits k) && negb (existsb (String.eqb k) Object_prototype_names).

(** ** The report lines of [outputSizes] *)

(** [delta && Math.abs(delta) > 1]: the line shows the change; otherwise it
    says [(no change)]. *)
Definition shows_change (delta : Z) : bool :=
  negb (delta =? 0)%Z && (Z.abs delta >? 1)%Z.

(** A second build, of two chunks that are not the hashed bundle. *)
Definition later_state : State :=
  snd (generateBundle sample_env Options.default
         (mkOutputOptions (Some "dist") None) sample_bundle hashed_build).

(** Size maps that differ by one byte in [a.js]. *)
Definition one_byte_after : Js.object :=
  [("a.js", Js.num 1001)].

(** The default options with a [save] callback. *)
Definition options_with_callback : Options.t :=
  Options.mk gzip 6 "**/*.{mjs,js,jsx,css,html}" "" (Options.filename_of gzip)
    true 20 true.

(** * Properties *)

(** ** Objects *)

Lemma has_true_iff (o : Js.object) (k : string) :
  Js.has o k = true <-> In k (Js.keys o).
Proof.
  unfold Js.has. rewrite existsb_exists. split.
  - intros [x [Hx He]]. apply String.eqb_eq in He. now subst.
  - intros H. exists k. split; [assumption | apply String.eqb_refl].
Qed.

Lemma has_false_iff (o : Js.object) (k : string) :
  Js.has o k = false <-> ~ In k (Js.keys o).
Proof.
  rewrite <- has_true_iff. destruct (Js.has o k); intuition congruence.
Qed.

Lemma get_absent (o : Js.object) (k : string) :
  ~ In k (Js.keys o) -> Js.get o k = Js.undefined.
Proof.
  induction o as [| [k' v] o IH]; simpl; intros H; [reflexivity |].
  destruct (String.eqb_spec k' k) as [-> | Hne]; [tauto |].
  apply IH. tauto.
Qed.

Lemma or_zero_num (n : Z) : Js.or_zero (Js.num n) = n.
Proof.
  unfold Js.or_zero, Js.truthy. destruct (Z.eqb_spec n 0); simpl; congruence.
Qed.

Lemma keys_set (o : Js.object) (k : string) (v : Js.value) :
  Js.keys (Js.set o k v) =
  if Js.has o k then Js.keys o else Js.keys o ++ [k].
Proof.
  induction o as [| [k' v'] o IH]; [reflexivity |].
  unfold Js.has in *. simpl.
  rewrite (String.eqb_sym k k').
  destruct (String.eqb_spec k' k) as [-> | Hne]; simpl; [reflexivity |].
  rewrite IH. now destruct (existsb (String.eqb k) (Js.keys o)).
Qed.

Lemma get_set_same (o : Js.object) (k : string) (v : Js.value) :
  Js.get (Js.set o k v) k = v.
Proof.
  induction o as [| [k' v'] o IH]; simpl.
  - now rewrite String.eqb_refl.
  - destruct (String.eqb_spec k' k) as [-> | Hne]; simpl.
    + now rewrite String.eqb_refl.
    + apply String.eqb_neq in Hne. now rewrite Hne.
Qed.

Lemma get_set_other (o : Js.object) (k k' : string) (v : Js.value) :
  k <> k' -> Js.get (Js.set o k v) k' = Js.get o k'.
Proof.
  intros Hkk'. induction o as [| [k0 v0] o IH]; simpl.
  - apply String.eqb_neq in Hkk'. now rewrite Hkk'.
  - destruct (String.eqb_spec k0 k) as [-> | Hne]; simpl.
    + apply String.eqb_neq in Hkk'. now rewrite Hkk'.
    + destruct (String.eqb k0 k'); [reflexivity | exact IH].
Qed.

Lemma NoDup_keys_set (o : Js.object) (k : string) (v : Js.value) :
  NoDup (Js.keys o) -> NoDup (Js.keys (Js.set o k v)).
Proof.
  intros H. rewrite keys_set. destruct (Js.has o k) eqn:Hk; [assumption |].
  apply has_false_iff in Hk.
  apply NoDup_app; [assumption | repeat constructor; simpl; tauto |].
  intros x Hx [<- | []]. tauto.
Qed.

(** ** [indexOf] and the filter of first occurrences *)

Lemma indexOf_from_fresh (pre rest : list string) (x : string) (i : nat) :
  ~ In x pre ->
  Js.indexOf_from i (pre ++ x :: rest) x = Z.of_nat (i + List.length pre).
Proof.
  revert i. induction pre as [| y pre IH]; simpl; intros i H.
  - rewrite String.eqb_refl. f_equal. lia.
  - destruct (String.eqb_spec y x) as [-> | Hne]; [tauto |].
    rewrite IH by tauto. f_equal. lia.
Qed.

Lemma indexOf_from_seen (pre rest : list string) (x : string) (i : nat) :
  In x pre ->
  (Js.indexOf_from i (pre ++ rest) x < Z.of_nat (i + List.length pre))%Z.
Proof.
  revert i. induction pre as [| y pre IH]; simpl; intros i H; [tauto |].
  destruct (String.eqb_spec y x) as [-> | Hne]; [lia |].
  destruct H as [H | H]; [congruence |].
  specialize (IH (S i) H). lia.
Qed.

Lemma dedupe_at (pre rest : list string) (x : string) :
  utils.dedupe x (List.length pre) (pre ++ x :: rest) =
  negb (existsb (String.eqb x) pre).
Proof.
  unfold utils.dedupe, Js.indexOf.
  destruct (existsb (String.eqb x) pre) eqn:Hx; simpl.
  - apply existsb_exists in Hx. destruct Hx as [y [Hy He]].
    apply String.eqb_eq in He. subst y.
    pose proof (indexOf_from_seen pre (x :: rest) x 0 Hy) as Hlt.
    simpl in Hlt. apply Z.eqb_neq. lia.
  - rewrite indexOf_from_fresh; [apply Z.eqb_refl |].
    intros Hin. assert (existsb (String.eqb x) pre = true) as Ht.
    { apply existsb_exists. exists x. split; [assumption | apply String.eqb_refl]. }
    congruence.
Qed.

Lemma filter_dedupe_NoDup (l pre suf : list string) :
  NoDup l ->
  Js.filter_from (fun x i => utils.dedupe x i (pre ++ l ++ suf))
    (List.length pre) l =
  filter (fun x => negb (existsb (String.eqb x) pre)) l.
Proof.
  revert pre. induction l as [| x l IH]; intros pre Hnd; [reflexivity |].
  inversion Hnd as [| ? ? Hx Hl]; subst.
  cbn [Js.filter_from filter app].
  rewrite dedupe_at.
  assert (Js.filter_from
            (fun y i => utils.dedupe y i (pre ++ x :: l ++ suf))
            (S (List.length pre)) l =
          filter (fun y => negb (existsb (String.eqb y) pre)) l) as Hrest.
  { specialize (IH (pre ++ [x]) Hl).
    rewrite <- app_assoc in IH. simpl in IH.
    rewrite length_app in IH. simpl in IH.
    replace (List.length pre + 1)%nat with (S (List.length pre)) in IH by lia.
    rewrite IH. apply filter_ext_in. intros y Hy.
    rewrite existsb_app. simpl.
    destruct (String.eqb_spec y x) as [-> | Hne]; [tauto |].
    now rewrite !orb_false_r. }
  rewrite Hrest. reflexivity.
Qed.

Lemma filter_from_app {A : Type} (f : A -> nat -> bool) (l1 l2 : list A) (i : nat) :
  Js.filter_from f i (l1 ++ l2) =
  Js.filter_from f i l1 ++ Js.filter_from f (i + List.length l1) l2.
Proof.
  revert i. induction l1 as [| x l1 IH]; intros i; simpl.
  - f_equal. lia.
  - rewrite IH. replace (S i + List.length l1)%nat with (i + S (List.length l1))%nat by lia.
    now destruct (f x i).
Qed.

Lemma unique_filenames_spec (before after : Js.object) :
  NoDup (Js.keys before) -> NoDup (Js.keys after) ->
  unique_filenames before after =
  Js.keys before ++ filter (fun k => negb (Js.has before k)) (Js.keys after).
Proof.
  intros Hb Ha. unfold unique_filenames, Js.filter_indexed.
  rewrite filter_from_app. f_equal.
  - pose proof (filter_dedupe_NoDup (Js.keys before) [] (Js.keys after) Hb) as H.
    simpl in H. rewrite H. clear H.
    induction (Js.keys before) as [| x l IH]; simpl; [reflexivity |].
    f_equal. apply IH. now inversion Hb.
  - pose proof (filter_dedupe_NoDup (Js.keys after) (Js.keys before) [] Ha) as H.
    rewrite app_nil_r in H. simpl. exact H.
Qed.

(** ** Reconciliation *)

Lemma or_zero_match (v : Js.value) :
  Js.or_zero v = match v with Js.num n => n | _ => 0%Z end.
Proof. destruct v; try reflexivity. apply or_zero_num. Qed.

Lemma reconcile_map (before after : Js.object) :
  reconcile before after =
  map (fun k =>
         let p := Js.or_zero (Js.get before k) in
         let s := Js.or_zero (Js.get after k) in
         mkFileDelta k p s (s - p)%Z)
    (unique_filenames before after).
Proof. unfold reconcile, items_of. rewrite map_map. reflexivity. Qed.

Lemma reconcile_filenames (before after : Js.object) :
  map filename (reconcile before after) = unique_filenames before after.
Proof.
  rewrite reconcile_map, map_map. simpl. apply map_id.
Qed.

Lemma NoDup_union_order (a b : list string) (inb : string -> bool) :
  (forall k, inb k = true <-> In k a) ->
  NoDup a -> NoDup b ->
  NoDup (a ++ filter (fun k => negb (inb k)) b).
Proof.
  intros Hin Ha Hb. apply NoDup_app.
  - assumption.
  - now apply NoDup_filter.
  - intros x Hx Hf. apply filter_In in Hf. destruct Hf as [_ Hf].
    apply Hin in Hx. rewrite Hx in Hf. discriminate.
Qed.

Lemma reconcile_names_and_previous (before after : Js.object) :
  NoDup (Js.keys before) -> NoDup (Js.keys after) ->
  map filename (reconcile before after) =
    Js.keys before ++ filter (fun k => negb (Js.has before k)) (Js.keys after)
  /\ forall d, In d (reconcile before after) ->
       previous d =
         match Js.get before (filename d) with Js.num n => n | _ => 0%Z end.
Proof.
  intros Hb Ha. split.
  - now rewrite reconcile_filenames, unique_filenames_spec.
  - intros d Hd. rewrite reconcile_map in Hd. apply in_map_iff in Hd.
    destruct Hd as [k [<- _]]. cbn [previous filename]. apply or_zero_match.
Qed.

(** C1.  For size maps [before] and [after] (objects, so their keys are
    unique) the reconciliation yields one record per file name of the union
    of the keys, without duplicates: first the keys of [before] in their
    order, then the keys of [after] that [before] does not have.  In the
    record of a name, [previous] is [before[name]] and [size] is
    [after[name]], each 0 when the name is absent, and [diff] is
    [size - previous]. *)
Theorem reconcile_union_of_keys (before after : Js.object)
  (Hbefore : NoDup (Js.keys before)) (Hafter : NoDup (Js.keys after)) :
  let names := map filename (reconcile before after) in
  names =
    Js.keys before ++ filter (fun k => negb (Js.has before k)) (Js.keys after)
  /\ NoDup names
  /\ (forall k, In k names <-> In k (Js.keys before) \/ In k (Js.keys after))
  /\ List.length (reconcile before after) = List.length names
  /\ forall d, In d (reconcile before after) ->
       previous d =
         match Js.get before (filename d) with Js.num n => n | _ => 0%Z end
       /\ size d =
         match Js.get after (filename d) with Js.num n => n | _ => 0%Z end
       /\ (~ In (filename d) (Js.keys before) -> previous d = 0%Z)
       /\ (~ In (filename d) (Js.keys after) -> size d = 0%Z)
       /\ diff d = (size d - previous d)%Z.
Proof.
  intros names. subst names.
  rewrite reconcile_filenames, (unique_filenames_spec _ _ Hbefore Hafter).
  split; [reflexivity |]. split; [| split; [| split]].
  - apply NoDup_union_order; auto. intros k. apply has_true_iff.
  - intros k. rewrite in_app_iff, filter_In, negb_true_iff, has_false_iff.
    destruct (in_dec string_dec k (Js.keys before)); tauto.
  - rewrite <- (length_map filename), reconcile_filenames.
    now rewrite (unique_filenames_spec _ _ Hbefore Hafter).
  - intros d Hd. rewrite reconcile_map in Hd. apply in_map_iff in Hd.
    destruct Hd as [k [<- _]]. cbn [previous size diff filename].
    rewrite <- !or_zero_match. repeat split.
    + intros Hk. now rewrite (get_absent _ _ Hk).
    + intros Hk. now rewrite (get_absent _ _ Hk).
Qed.

Lemma reconcile_union_of_keys_witness :
  map filename (reconcile sample_before sample_after) = ["a.js"; "b.js"]
  /\ reconcile sample_before sample_after =
     [mkFileDelta "a.js" 1000 1200 200; mkFileDelta "b.js" 0 500 500].
Proof.
  assert (NoDup (Js.keys sample_before)) as Hb.
  { repeat constructor; simpl; intuition discriminate. }
  assert (NoDup (Js.keys sample_after)) as Ha.
  { repeat constructor; simpl; intuition discriminate. }
  destruct (reconcile_union_of_keys sample_before sample_after Hb Ha)
    as [Hnames _].
  split; [exact Hnames | reflexivity].
Defined.

(** ** [toFileMap] *)

Lemma in_keys_set (o : Js.object) (k k' : string) (v : Js.value) :
  In k' (Js.keys (Js.set o k v)) <-> In k' (Js.keys o) \/ k' = k.
Proof.
  rewrite keys_set. destruct (Js.has o k) eqn:Hk.
  - apply has_true_iff in Hk. intuition (subst; assumption).
  - rewrite in_app_iff. simpl. intuition.
Qed.

Lemma set_absent (o : Js.object) (k : string) (v : Js.value) :
  ~ In k (Js.keys o) -> Js.set o k v = o ++ [(k, v)].
Proof.
  induction o as [| [k' v'] o IH]; simpl; intros H; [reflexivity |].
  destruct (String.eqb_spec k' k) as [-> | Hne]; [tauto |].
  rewrite IH by tauto. reflexivity.
Qed.

Lemma fold_toFileMap_NoDup (l : list FileDelta) (acc : Js.object) :
  NoDup (Js.keys acc) -> NoDup (Js.keys (fold_left utils.toFileMap_step l acc)).
Proof.
  revert acc. induction l as [| d l IH]; intros acc H; simpl; [assumption |].
  apply IH. unfold utils.toFileMap_step.
  destruct (negb (size d =? 0)%Z); [now apply NoDup_keys_set | assumption].
Qed.

Lemma fold_toFileMap_keys (l : list FileDelta) (acc : Js.object) (k : string) :
  In k (Js.keys (fold_left utils.toFileMap_step l acc)) <->
  In k (Js.keys acc) \/ exists d, In d l /\ filename d = k /\ size d <> 0%Z.
Proof.
  revert acc. induction l as [| d l IH]; intros acc; simpl.
  - split; [tauto | intros [H | [d [[] _]]]; assumption].
  - rewrite IH. unfold utils.toFileMap_step.
    destruct (Z.eqb_spec (size d) 0) as [Hz | Hnz]; simpl.
    + split.
      * intros [H | [d' [Hd' H]]]; [tauto | right; exists d'; tauto].
      * intros [H | [d' [[<- | Hd'] [Hf Hs]]]];
          [tauto | congruence | right; exists d'; tauto].
    + rewrite in_keys_set. split.
      * intros [[H | ->] | [d' [Hd' H]]];
          [tauto | right; exists d; tauto | right; exists d'; tauto].
      * intros [H | [d' [[<- | Hd'] [Hf Hs]]]];
          [tauto | left; right; congruence | right; exists d'; tauto].
Qed.

Lemma fold_toFileMap_nonzero (l : list FileDelta) (acc : Js.object) (k : string) :
  Js.get (fold_left utils.toFileMap_step l acc) k = Js.num 0 ->
  Js.get acc k = Js.num 0.
Proof.
  revert acc. induction l as [| d l IH]; intros acc; simpl; [tauto |].
  intros H. apply IH in H. unfold utils.toFileMap_step in H.
  destruct (Z.eqb_spec (size d) 0) as [Hz | Hnz]; simpl in H; [assumption |].
  destruct (string_dec (filename d) k) as [<- | Hne].
  - rewrite get_set_same in H. congruence.
  - now rewrite get_set_other in H.
Qed.

Lemma fold_toFileMap_frame (l : list FileDelta) (acc : Js.object) (k : string) :
  (forall d, In d l -> filename d = k -> size d = 0%Z) ->
  Js.get (fold_left utils.toFileMap_step l acc) k = Js.get acc k.
Proof.
  revert acc. induction l as [| d l IH]; intros acc H; simpl; [reflexivity |].
  rewrite IH by (intros; apply H; simpl; tauto).
  unfold utils.toFileMap_step.
  destruct (Z.eqb_spec (size d) 0) as [Hz | Hnz]; simpl; [reflexivity |].
  apply get_set_other. intros He. apply Hnz, H; simpl; tauto.
Qed.

Lemma fold_toFileMap_distinct (l : list FileDelta) (acc : Js.object) :
  NoDup (Js.keys acc ++ map filename l) ->
  fold_left utils.toFileMap_step l acc =
  acc ++ map (fun d => (filename d, Js.num (size d)))
           (filter (fun d => negb (size d =? 0)%Z) l).
Proof.
  revert acc. induction l as [| d l IH]; intros acc H; simpl.
  - now rewrite app_nil_r.
  - unfold utils.toFileMap_step at 2.
    pose proof (NoDup_remove_1 _ _ _ H) as H1.
    pose proof (NoDup_remove_2 _ _ _ H) as H2.
    destruct (negb (size d =? 0)%Z).
    + rewrite set_absent by (intros Hin; apply H2, in_or_app; tauto).
      rewrite IH.
      * rewrite <- app_assoc. reflexivity.
      * unfold Js.keys in *. rewrite map_app, <- app_assoc. exact H.
    + apply IH. exact H1.
Qed.

(** C3.  [toFileMap], which [load] applies to the files of the latest
    stored snapshot, keeps exactly the file names that have a record of
    nonzero size, each once and mapped to the size of its last such record;
    no entry of the resulting map is 0.  For records with distinct names the
    map is the list of the nonzero records in their order. *)
Theorem toFileMap_drops_zero_sizes (l : list FileDelta) :
  let m := utils.toFileMap l in
  NoDup (Js.keys m)
  /\ (forall k, In k (Js.keys m) <->
                exists d, In d l /\ filename d = k /\ size d <> 0%Z)
  /\ (forall k, Js.get m k <> Js.num 0)
  /\ (forall pre d post,
        l = pre ++ d :: post -> size d <> 0%Z ->
        (forall d', In d' post -> filename d' = filename d -> size d' = 0%Z) ->
        Js.get m (filename d) = Js.num (size d))
  /\ (NoDup (map filename l) ->
      m = map (fun d => (filename d, Js.num (size d)))
            (filter (fun d => negb (size d =? 0)%Z) l))
  /\ (forall E o outputPath s latest rest,
        readFromDisk o s = (Ok (latest :: rest), s) -> files latest = l ->
        load E o outputPath s = (Ok m, s)).
Proof.
  intros m. subst m.
  assert (forall E o outputPath s latest rest,
             readFromDisk o s = (Ok (latest :: rest), s) -> files latest = l ->
             load E o outputPath s = (Ok (utils.toFileMap l), s)) as Hload.
  { intros E o outputPath s latest rest Hread <-.
    unfold load, bind. rewrite Hread. reflexivity. }
  unfold utils.toFileMap in *. repeat split; [| | | | | | exact Hload].
  - apply fold_toFileMap_NoDup. constructor.
  - intros H. apply fold_toFileMap_keys in H. destruct H as [[] | H]. exact H.
  - intros H. apply fold_toFileMap_keys. now right.
  - intros k H. apply fold_toFileMap_nonzero in H. discriminate.
  - intros pre d post -> Hnz Hpost.
    rewrite fold_left_app. simpl.
    rewrite fold_toFileMap_frame by assumption.
    unfold utils.toFileMap_step. apply Z.eqb_neq in Hnz. rewrite Hnz. simpl.
    apply get_set_same.
  - intros H. now rewrite fold_toFileMap_distinct.
Qed.

Lemma toFileMap_drops_zero_sizes_witness :
  utils.toFileMap sample_files = [("a.js", Js.num 1200); ("c.js", Js.num 7)].
Proof.
  destruct (toFileMap_drops_zero_sizes sample_files) as [_ [_ [_ [_ [H _]]]]].
  rewrite H.
  - reflexivity.
  - repeat constructor; simpl; intuition discriminate.
Defined.

(** ** The sort of [readFromDisk] *)

Lemma insert_desc_perm (a : Snapshot) (l : list Snapshot) :
  Permutation (insert_desc a l) (a :: l).
Proof.
  induction l as [| b l IH]; simpl; [apply Permutation_refl |].
  destruct (timestamp b >? timestamp a)%Z; [| apply Permutation_refl].
  eapply perm_trans; [apply perm_skip, IH | apply perm_swap].
Qed.

Lemma sort_desc_perm (l : list Snapshot) : Permutation (sort_desc l) l.
Proof.
  induction l as [| a l IH]; simpl; [constructor |].
  eapply perm_trans; [apply insert_desc_perm | now apply perm_skip].
Qed.

Lemma insert_desc_sorted (a : Snapshot) (l : list Snapshot) :
  newest_first l -> newest_first (insert_desc a l).
Proof.
  unfold newest_first. induction 1 as [| b l Hl IH Hb]; simpl.
  - repeat constructor.
  - destruct (Z.gtb_spec (timestamp b) (timestamp a)) as [Hgt | Hle].
    + constructor; [exact IH |].
      apply Forall_forall. intros x Hx.
      apply (Permutation_in _ (insert_desc_perm a l)) in Hx.
      destruct Hx as [<- | Hx]; [lia |].
      rewrite Forall_forall in Hb. now apply Hb.
    + constructor; [now constructor |].
      constructor; [lia |].
      rewrite Forall_forall in Hb |- *. intros x Hx.
      specialize (Hb x Hx). lia.
Qed.

Lemma sort_desc_sorted (l : list Snapshot) : newest_first (sort_desc l).
Proof.
  induction l as [| a l IH]; simpl; [constructor | now apply insert_desc_sorted].
Qed.

Lemma insert_desc_stable (t : Z) (a : Snapshot) (l : list Snapshot) :
  filter (fun x => (timestamp x =? t)%Z) (insert_desc a l) =
  filter (fun x => (timestamp x =? t)%Z) (a :: l).
Proof.
  induction l as [| b l IH]; [reflexivity |].
  cbn [insert_desc].
  destruct (Z.gtb_spec (timestamp b) (timestamp a)) as [Hgt | Hle];
    [| reflexivity].
  cbn [filter] in *. rewrite IH.
  destruct (Z.eqb_spec (timestamp a) t), (Z.eqb_spec (timestamp b) t);
    try reflexivity; lia.
Qed.

Lemma sort_desc_stable (t : Z) (l : list Snapshot) :
  filter (fun x => (timestamp x =? t)%Z) (sort_desc l) =
  filter (fun x => (timestamp x =? t)%Z) l.
Proof.
  induction l as [| a l IH]; [reflexivity |].
  cbn [sort_desc fold_right]. fold (sort_desc l).
  rewrite insert_desc_stable. cbn [filter]. now rewrite IH.
Qed.

Lemma sort_desc_sorted_id (l : list Snapshot) :
  newest_first l -> sort_desc l = l.
Proof.
  unfold newest_first. induction 1 as [| a l Hl IH Ha]; [reflexivity |].
  cbn [sort_desc fold_right]. fold (sort_desc l). rewrite IH.
  destruct l as [| b l']; [reflexivity |]. simpl.
  inversion Ha as [| ? ? Hab _]; subst.
  destruct (Z.gtb_spec (timestamp b) (timestamp a)); [lia | reflexivity].
Qed.

Lemma sort_desc_head (l : list Snapshot) (latest : Snapshot) (rest : list Snapshot) :
  sort_desc l = latest :: rest ->
  In latest l
  /\ (forall x, In x l -> (timestamp x <= timestamp latest)%Z)
  /\ hd_error (filter (fun x => (timestamp x =? timestamp latest)%Z) l)
     = Some latest.
Proof.
  intros H. pose proof (sort_desc_perm l) as Hp.
  pose proof (sort_desc_sorted l) as Hs.
  pose proof (sort_desc_stable (timestamp latest) l) as Hst.
  rewrite H in Hp, Hs, Hst. repeat split.
  - apply (Permutation_in _ Hp). now left.
  - intros x Hx. apply (Permutation_in _ (Permutation_sym Hp)) in Hx.
    destruct Hx as [<- | Hx]; [lia |].
    inversion Hs as [| ? ? _ Hall]; subst.
    rewrite Forall_forall in Hall. now apply Hall.
  - rewrite <- Hst. simpl. now rewrite Z.eqb_refl.
Qed.

Lemma sort_desc_nonempty (l : list Snapshot) :
  l <> [] -> exists latest rest, sort_desc l = latest :: rest.
Proof.
  intros Hl. destruct (sort_desc l) as [| x r] eqn:E; [| now exists x, r].
  pose proof (sort_desc_perm l) as Hp. rewrite E in Hp.
  apply Permutation_nil in Hp. contradiction.
Qed.

(** ** Reading the history *)

(** Unfolds the monad operations, leaving the model's functions alone. *)
Ltac run_monad :=
  cbv [bind ret throw catch lift get_state emit set_history set_pattern
       set_initialSizes set_isSingleChunk].

Lemma readFromDisk_total (o : Options.t) (s : State) :
  readFromDisk o s =
  (Ok (if Options.writeFile o
       then match history s with Stored data => sort_desc data | _ => [] end
       else []), s).
Proof.
  unfold readFromDisk, readJSON. run_monad.
  destruct (Options.writeFile o); simpl; [| reflexivity].
  destruct (history s); reflexivity.
Qed.

Lemma readFromDisk_stored (o : Options.t) (s : State) (data : list Snapshot) :
  Options.writeFile o = true -> history s = Stored data ->
  readFromDisk o s = (Ok (sort_desc data), s).
Proof.
  intros Hw Hh. rewrite readFromDisk_total, Hw, Hh. reflexivity.
Qed.

Lemma readFromDisk_disabled (o : Options.t) (s : State) :
  Options.writeFile o = false -> readFromDisk o s = (Ok [], s).
Proof.
  intros Hw. rewrite readFromDisk_total, Hw. reflexivity.
Qed.

Lemma readFromDisk_no_history (o : Options.t) (s : State) :
  no_history o (history s) -> readFromDisk o s = (Ok [], s).
Proof.
  intros [Hw | Hempty]; rewrite readFromDisk_total.
  - now rewrite Hw.
  - destruct (Options.writeFile o); [| reflexivity].
    destruct (history s) as [| | data]; try reflexivity.
    now rewrite (Hempty data eq_refl).
Qed.

(** C6.  With persistence enabled and a non-empty stored history, [load]
    sorts the stored sequence by descending timestamp (a stable sort, which
    leaves a sequence that is already newest-first as it is) and returns the
    size map of the files of its first snapshot: a stored snapshot of
    greatest timestamp, the first of them in the stored order. *)
Theorem load_takes_latest_snapshot (E : Env) (o : Options.t)
  (outputPath : string) (s : State) (data : list Snapshot)
  (Hwrite : Options.writeFile o = true)
  (Hstored : history s = Stored data)
  (Hnonempty : data <> []) :
  readFromDisk o s = (Ok (sort_desc data), s)
  /\ Permutation (sort_desc data) data
  /\ newest_first (sort_desc data)
  /\ (newest_first data -> sort_desc data = data)
  /\ exists latest rest,
       sort_desc data = latest :: rest
       /\ In latest data
       /\ (forall x, In x data -> (timestamp x <= timestamp latest)%Z)
       /\ hd_error
            (filter (fun x => (timestamp x =? timestamp latest)%Z) data)
          = Some latest
       /\ load E o outputPath s = (Ok (utils.toFileMap (files latest)), s).
Proof.
  split; [now apply readFromDisk_stored |].
  split; [apply sort_desc_perm |].
  split; [apply sort_desc_sorted |].
  split; [apply sort_desc_sorted_id |].
  destruct (sort_desc_nonempty data Hnonempty) as [latest [rest Hsort]].
  exists latest, rest.
  destruct (sort_desc_head data latest rest Hsort) as [Hin [Hmax Hfirst]].
  repeat split; try assumption.
  unfold load, bind. rewrite (readFromDisk_stored o s data Hwrite Hstored).
  rewrite Hsort. reflexivity.
Qed.

Lemma load_takes_latest_snapshot_witness :
  load sample_env Options.default "dist" sample_state =
  (Ok [("a.js", Js.num 1200); ("c.js", Js.num 7)], sample_state).
Proof.
  assert (sample_history <> []) as Hne by discriminate.
  destruct (load_takes_latest_snapshot sample_env Options.default "dist"
              sample_state sample_history eq_refl eq_refl Hne)
    as [_ [_ [_ [_ [latest [rest [Hsort [_ [_ [_ Hload]]]]]]]]]].
  rewrite Hload. vm_compute in Hsort. injection Hsort as <- _. reflexivity.
Defined.

(** ** Writing the history *)

Lemma existsb_nonzero_false (l : list FileDelta) :
  Forall (fun d => diff d = 0%Z) l ->
  existsb (fun file => negb (diff file =? 0)%Z) l = false.
Proof.
  induction 1 as [| d l Hd _ IH]; [reflexivity |].
  simpl. rewrite Hd, IH. reflexivity.
Qed.

Lemma existsb_nonzero_true (l : list FileDelta) :
  Exists (fun d => diff d <> 0%Z) l ->
  existsb (fun file => negb (diff file =? 0)%Z) l = true.
Proof.
  intros H. apply existsb_exists. apply Exists_exists in H.
  destruct H as [d [Hin Hd]]. exists d. split; [assumption |].
  apply negb_true_iff. now apply Z.eqb_neq.
Qed.

Lemma writeToDisk_unchanged (o : Options.t) (stats : Snapshot) (s : State) :
  Forall (fun d => diff d = 0%Z) (files stats) ->
  writeToDisk o stats s = (Ok tt, s).
Proof.
  intros H. unfold writeToDisk. now rewrite existsb_nonzero_false.
Qed.

Lemma writeToDisk_disabled (o : Options.t) (stats : Snapshot) (s : State) :
  Options.writeFile o = false -> writeToDisk o stats s = (Ok tt, s).
Proof.
  intros Hw. unfold writeToDisk.
  destruct (existsb _ (files stats)); [| reflexivity].
  unfold bind. rewrite readFromDisk_total, Hw. reflexivity.
Qed.

Lemma writeToDisk_writes (o : Options.t) (stats : Snapshot) (s : State) :
  Exists (fun d => diff d <> 0%Z) (files stats) ->
  Options.writeFile o = true ->
  let existing :=
    match history s with Stored data => sort_desc data | _ => [] end in
  writeToDisk o stats s =
  (Ok tt,
   mkState (Stored (stats :: existing))
     (trace s ++ [EnsureFile; WriteJSON (stats :: existing)])
     (pattern s) (initialSizes s) (isSingleChunk s)).
Proof.
  intros H Hw existing. unfold writeToDisk.
  rewrite existsb_nonzero_true by assumption.
  unfold bind at 1. rewrite readFromDisk_total, Hw.
  unfold ensureFile, writeJSON. run_monad. cbn [history trace pattern
    initialSizes isSingleChunk].
  fold existing.
  destruct (history s); cbn [history trace pattern initialSizes isSingleChunk];
    rewrite <- app_assoc; reflexivity.
Qed.

(** C4.  When every record of the new snapshot has [diff = 0],
    [writeToDisk] does nothing: no file operation, the history file and the
    rest of the state are as before.  When some record has a nonzero [diff]
    and writing is enabled, it reads the existing history (the stored
    sequence as [readFromDisk] returns it, empty when the file is absent or
    unparseable), puts the new snapshot in front and writes that sequence
    back; [readFromDisk] sorts what is stored, so a stored history that is
    newest-first is kept as it is behind the new snapshot. *)
Theorem writeToDisk_only_on_change (o : Options.t) (stats : Snapshot)
  (s : State) :
  (Forall (fun d => diff d = 0%Z) (files stats) ->
   writeToDisk o stats s = (Ok tt, s))
  /\ (Exists (fun d => diff d <> 0%Z) (files stats) ->
      Options.writeFile o = true ->
      exists existing,
        readFromDisk o s = (Ok existing, s)
        /\ writeToDisk o stats s =
           (Ok tt,
            mkState (Stored (stats :: existing))
              (trace s ++ [EnsureFile; WriteJSON (stats :: existing)])
              (pattern s) (initialSizes s) (isSingleChunk s))
        /\ (forall data, history s = Stored data -> existing = sort_desc data)
        /\ (forall data, history s = Stored data -> newest_first data ->
                         existing = data)
        /\ (history s = Absent \/ history s = Unparseable -> existing = [])).
Proof.
  split; [apply writeToDisk_unchanged |].
  intros Hex Hw.
  exists (match history s with Stored data => sort_desc data | _ => [] end).
  split; [| split; [| split; [| split]]].
  - rewrite readFromDisk_total, Hw. reflexivity.
  - now apply writeToDisk_writes.
  - intros data ->. reflexivity.
  - intros data -> Hsorted. now apply sort_desc_sorted_id.
  - intros [-> | ->]; reflexivity.
Qed.

Lemma writeToDisk_only_on_change_witness :
  writeToDisk Options.default unchanged_stats sample_state
    = (Ok tt, sample_state)
  /\ history (snd (writeToDisk Options.default changed_stats sample_state))
     = Stored (changed_stats :: sort_desc sample_history).
Proof.
  destruct (writeToDisk_only_on_change Options.default unchanged_stats
              sample_state) as [Hsame _].
  destruct (writeToDisk_only_on_change Options.default changed_stats
              sample_state) as [_ Hwrite].
  split.
  - apply Hsame. repeat constructor.
  - destruct Hwrite as [existing [Hread [Hw _]]].
    + apply Exists_cons_hd. simpl. discriminate.
    + reflexivity.
    + rewrite Hw. cbn [snd history].
      rewrite readFromDisk_total in Hread. injection Hread as <-.
      reflexivity.
Defined.

Lemma writeToDisk_history (o : Options.t) (stats : Snapshot) (s : State) :
  history (snd (writeToDisk o stats s)) = history s
  \/ exists existing,
       history (snd (writeToDisk o stats s)) = Stored (stats :: existing).
Proof.
  destruct (existsb (fun file => negb (diff file =? 0)%Z) (files stats)) eqn:Hd.
  - destruct (Options.writeFile o) eqn:Hw.
    + right. eexists. rewrite writeToDisk_writes; [reflexivity | | assumption].
      apply existsb_exists in Hd. destruct Hd as [d [Hin Hd]].
      apply Exists_exists. exists d. split; [assumption |].
      apply negb_true_iff in Hd. now apply Z.eqb_neq.
    + left. now rewrite writeToDisk_disabled.
  - left. unfold writeToDisk. now rewrite Hd.
Qed.

(** C2.  In the snapshot that [save] builds, whatever the items it is
    given, each record satisfies [diff = size - previous]; and when [save]
    changes the history file, that snapshot is the one it puts in front. *)
Theorem save_diff_is_size_minus_previous (E : Env) (o : Options.t)
  (items : list Item) :
  let stats :=
    stats_of (now E) (Options.compression o) (Options.compressionLevel o)
      items in
  Forall (fun d => diff d = (size d - previous d)%Z) (files stats)
  /\ forall s,
       history (snd (save E o items s)) = history s
       \/ exists existing,
            history (snd (save E o items s)) = Stored (stats :: existing).
Proof.
  intros stats. split.
  - unfold stats, stats_of. cbn [files]. apply Forall_forall. intros d Hd.
    apply in_map_iff in Hd. destruct Hd as [it [<- _]]. reflexivity.
  - intros s. unfold save. fold stats. unfold bind.
    destruct (Options.save o); cbn [emit ret];
      match goal with
      | |- context [writeToDisk o stats ?s1] =>
          destruct (writeToDisk_history o stats s1) as [H | [existing H]];
            [left; exact H | right; exists existing; exact H]
      end.
Qed.

(** ** Computations that leave the history file alone *)

Lemma no_write_ret {A : Type} (a : A) : no_write (ret a).
Proof. intros s. split; reflexivity. Qed.

Lemma no_write_throw {A : Type} (e : error) : no_write (@throw A e).
Proof. intros s. split; reflexivity. Qed.

Lemma no_write_lift {A : Type} (r : result A) : no_write (lift r).
Proof. intros s. split; reflexivity. Qed.

Lemma no_write_get_state : no_write get_state.
Proof. intros s. split; reflexivity. Qed.

Lemma no_write_set_pattern (p : string) : no_write (set_pattern p).
Proof. intros s. split; reflexivity. Qed.

Lemma no_write_set_initialSizes (m : Js.object) : no_write (set_initialSizes m).
Proof. intros s. split; reflexivity. Qed.

Lemma no_write_set_isSingleChunk (b : bool) : no_write (set_isSingleChunk b).
Proof. intros s. split; reflexivity. Qed.

Lemma no_write_emit (e : Event) : is_write e = false -> no_write (emit e).
Proof.
  intros He s. split; [reflexivity |]. unfold emit, writes. simpl.
  rewrite filter_app. simpl. rewrite He. apply app_nil_r.
Qed.

Lemma no_write_bind {A B : Type} (m : M A) (k : A -> M B) :
  no_write m -> (forall a, no_write (k a)) -> no_write (bind m k).
Proof.
  intros Hm Hk s. unfold bind. specialize (Hm s).
  destruct (m s) as [[a | e] s']; simpl in Hm.
  - destruct (Hk a s') as [H1 H2]. destruct Hm as [H3 H4]. split; congruence.
  - exact Hm.
Qed.

Lemma no_write_catch {A : Type} (m : M A) (handler : error -> M A) :
  no_write m -> (forall e, no_write (handler e)) -> no_write (catch m handler).
Proof.
  intros Hm Hh s. unfold catch. specialize (Hm s).
  destruct (m s) as [[a | e] s']; simpl in Hm.
  - exact Hm.
  - destruct (Hh e s') as [H1 H2]. destruct Hm as [H3 H4]. split; congruence.
Qed.

Lemma no_write_eq {A : Type} (m : M A) :
  (forall s, snd (m s) = s) -> no_write m.
Proof. intros H s. rewrite H. split; reflexivity. Qed.

Lemma no_write_readFromDisk (o : Options.t) : no_write (readFromDisk o).
Proof. apply no_write_eq. intros s. now rewrite readFromDisk_total. Qed.

Lemma getSizes_total (E : Env) (o : Options.t) (cwd : string) (s : State) :
  getSizes E o cwd s =
  (let files := glob E (pattern s) cwd (Options.exclude o) in
   map_result (utils.toMap files)
     (Promise_all (map (measure_file E o cwd)
                     (filterFiles E o (pattern s) files))),
   s).
Proof.
  unfold getSizes. run_monad.
  destruct (Promise_all _); reflexivity.
Qed.

Lemma no_write_getSizes (E : Env) (o : Options.t) (cwd : string) :
  no_write (getSizes E o cwd).
Proof. apply no_write_eq. intros s. now rewrite getSizes_total. Qed.

Lemma no_write_load (E : Env) (o : Options.t) (outputPath : string) :
  no_write (load E o outputPath).
Proof.
  unfold load. apply no_write_bind; [apply no_write_readFromDisk |].
  intros [| first rest]; [apply no_write_getSizes | apply no_write_ret].
Qed.

Lemma no_write_writeToDisk (o : Options.t) (stats : Snapshot) :
  Options.writeFile o = false -> no_write (writeToDisk o stats).
Proof.
  intros Hw. apply no_write_eq. intros s. now rewrite writeToDisk_disabled.
Qed.

Lemma no_write_save (E : Env) (o : Options.t) (items : list Item) :
  Options.writeFile o = false -> no_write (save E o items).
Proof.
  intros Hw. unfold save. apply no_write_bind.
  - destruct (Options.save o); [now apply no_write_emit | apply no_write_ret].
  - intros _. now apply no_write_writeToDisk.
Qed.

Lemma no_write_outputSizes_rest (E : Env) (o : Options.t)
  (assets : OutputBundle) (sizesBefore : Js.object) :
  Options.writeFile o = false ->
  no_write (outputSizes_rest E o assets sizesBefore).
Proof.
  intros Hw. unfold outputSizes_rest.
  apply no_write_bind; [apply no_write_get_state | intros s0].
  apply no_write_bind; [apply no_write_lift | intros sizes].
  apply no_write_bind; [now apply no_write_save | intros _].
  destruct (items_of _ _); [apply no_write_ret | now apply no_write_emit].
Qed.

Lemma no_write_outputSizes (E : Env) (o : Options.t) (assets : OutputBundle) :
  Options.writeFile o = false -> no_write (outputSizes E o assets).
Proof.
  intros Hw. unfold outputSizes.
  apply no_write_bind; [apply no_write_get_state | intros s0].
  now apply no_write_outputSizes_rest.
Qed.

Lemma no_write_detached (E : Env) (o : Options.t) (bundle : OutputBundle)
  (sizesBefore : Js.object) :
  Options.writeFile o = false ->
  no_write (detached_outputSizes E o bundle sizesBefore).
Proof.
  intros Hw. unfold detached_outputSizes.
  apply no_write_catch; [now apply no_write_outputSizes_rest |].
  intros e. now apply no_write_emit.
Qed.

Lemma no_write_generateBundle (E : Env) (o : Options.t)
  (outputOptions : OutputOptions) (bundle : OutputBundle) :
  Options.writeFile o = false ->
  no_write (generateBundle E o outputOptions bundle).
Proof.
  intros Hw. unfold generateBundle.
  apply no_write_bind; [apply no_write_lift | intros _path].
  apply no_write_bind; [apply no_write_set_isSingleChunk | intros _].
  apply no_write_bind.
  { destruct (chunks_of bundle) as [| only [| ? ?]];
      [apply no_write_ret | apply no_write_set_pattern | apply no_write_ret]. }
  intros _.
  apply no_write_bind; [apply no_write_load | intros sizes].
  apply no_write_bind; [apply no_write_set_initialSizes | intros _].
  apply no_write_ret.
Qed.

(** The hook past the computation of the output path: the state in which
    [load] runs and the rest of the function. *)
Lemma generateBundle_unfold (E : Env) (o : Options.t)
  (outputOptions : OutputOptions) (bundle : OutputBundle) (s : State)
  (_path : string) :
  output_path E outputOptions = Ok _path ->
  generateBundle E o outputOptions bundle s =
  (sizes <- load E o _path ;;
   set_initialSizes sizes ;;
   ret (detached_outputSizes E o bundle sizes))
    (mkState (history s) (trace s)
       (match chunks_of bundle with
        | [only] => fileName only
        | _ => pattern s
        end)
       (initialSizes s) (Nat.eqb (List.length (chunks_of bundle)) 1)).
Proof.
  intros Hpath. unfold generateBundle.
  unfold bind at 1, lift. rewrite Hpath.
  unfold bind at 1, set_isSingleChunk. unfold bind at 1.
  destruct (chunks_of bundle) as [| only [| ? ?]]; reflexivity.
Qed.

Lemma load_state (E : Env) (o : Options.t) (outputPath : string) (s : State) :
  snd (load E o outputPath s) = s.
Proof.
  unfold load, bind. rewrite readFromDisk_total.
  destruct (if Options.writeFile o then _ else _); [| reflexivity].
  now rewrite getSizes_total.
Qed.

(** What the hook returns: an error of the output path or of [load], or
    the detached call for the sizes it loaded. *)
Lemma generateBundle_result (E : Env) (o : Options.t)
  (outputOptions : OutputOptions) (bundle : OutputBundle) (s : State)
  (_path : string) :
  output_path E outputOptions = Ok _path ->
  let s1 := mkState (history s) (trace s)
              (match chunks_of bundle with
               | [only] => fileName only
               | _ => pattern s
               end)
              (initialSizes s) (Nat.eqb (List.length (chunks_of bundle)) 1) in
  generateBundle E o outputOptions bundle s =
  match fst (load E o _path s1) with
  | Ok sizes =>
      (Ok (detached_outputSizes E o bundle sizes),
       mkState (history s1) (trace s1) (pattern s1) sizes (isSingleChunk s1))
  | Err e => (Err e, s1)
  end.
Proof.
  intros Hpath s1.
  rewrite (generateBundle_unfold E o outputOptions bundle s _path Hpath).
  fold s1. unfold bind at 1.
  pose proof (load_state E o _path s1) as Hs.
  destruct (load E o _path s1) as [[sizes | e] s2]; cbn [fst snd] in Hs |- *;
    subst s2; reflexivity.
Qed.

Lemma generateBundle_task (E : Env) (o : Options.t)
  (outputOptions : OutputOptions) (bundle : OutputBundle) (s s1 : State)
  (task : M unit) :
  generateBundle E o outputOptions bundle s = (Ok task, s1) ->
  task = detached_outputSizes E o bundle (initialSizes s1).
Proof.
  intros Hrun.
  destruct (output_path E outputOptions) as [_path | e] eqn:Hpath.
  - rewrite (generateBundle_result E o outputOptions bundle s _path Hpath)
      in Hrun.
    destruct (fst (load E o _path _)) as [sizes | e]; [| discriminate].
    injection Hrun as <- <-. reflexivity.
  - unfold generateBundle, bind, lift in Hrun. rewrite Hpath in Hrun.
    discriminate.
Qed.

Lemma no_write_build (E : Env) (o : Options.t)
  (outputOptions : OutputOptions) (bundle : OutputBundle) :
  Options.writeFile o = false ->
  no_write (build E o outputOptions bundle).
Proof.
  intros Hw s. unfold build, bind.
  pose proof (no_write_generateBundle E o outputOptions bundle Hw s) as Hhook.
  destruct (generateBundle E o outputOptions bundle s) as [[task | e] s1]
    eqn:Hrun; cbn [snd] in Hhook; [| exact Hhook].
  rewrite (generateBundle_task E o outputOptions bundle s s1 task Hrun).
  destruct (no_write_detached E o bundle (initialSizes s1) Hw s1) as [H1 H2].
  destruct Hhook as [H3 H4]. split; congruence.
Qed.

Lemma save_disabled (E : Env) (o : Options.t) (items : list Item) (s : State) :
  Options.writeFile o = false ->
  save E o items s =
  (Ok tt,
   mkState (history s)
     (trace s ++
      if Options.save o
      then [SaveHook (stats_of (now E) (Options.compression o)
                        (Options.compressionLevel o) items)]
      else [])
     (pattern s) (initialSizes s) (isSingleChunk s)).
Proof.
  intros Hw. unfold save, bind.
  destruct (Options.save o); simpl.
  - now rewrite writeToDisk_disabled.
  - rewrite writeToDisk_disabled by assumption. rewrite app_nil_r.
    now destruct s.
Qed.

(** C7.  With [writeFile] off the engine acts as if there were no history:
    [readFromDisk] returns the empty sequence whatever the file holds, so
    [load] is the scan of the output directory; [writeToDisk], the hook
    [generateBundle] and the whole build (the hook and the call of
    [outputSizes] it leaves running) perform no file operation and leave
    the history as it was, while [save] still builds the snapshot (handing
    it to the [save] callback when there is one) and [outputSizes] still
    reports the items. *)
Theorem writeFile_off_ignores_history (E : Env) (o : Options.t)
  (Hoff : Options.writeFile o = false) :
  (forall s, readFromDisk o s = (Ok [], s))
  /\ (forall outputPath s, load E o outputPath s = getSizes E o outputPath s)
  /\ (forall stats s, writeToDisk o stats s = (Ok tt, s))
  /\ (forall items s,
        save E o items s =
        (Ok tt,
         mkState (history s)
           (trace s ++
            if Options.save o
            then [SaveHook (stats_of (now E) (Options.compression o)
                              (Options.compressionLevel o) items)]
            else [])
           (pattern s) (initialSizes s) (isSingleChunk s)))
  /\ (forall assets s sizes,
        let assetNames := filterFiles E o (pattern s) (map fst assets) in
        let items := items_of (initialSizes s) (utils.toMap assetNames sizes) in
        Promise_all (map (measure_asset E o assets) assetNames) = Ok sizes ->
        items <> [] ->
        exists hook,
          outputSizes E o assets s =
          (Ok tt,
           mkState (history s) (trace s ++ hook ++ [ConsoleLog items])
             (pattern s) (initialSizes s) (isSingleChunk s))
          /\ writes hook = [])
  /\ (forall outputOptions bundle s,
        let s' := snd (generateBundle E o outputOptions bundle s) in
        history s' = history s /\ writes (trace s') = writes (trace s))
  /\ (forall outputOptions bundle s,
        let s' := snd (build E o outputOptions bundle s) in
        history s' = history s /\ writes (trace s') = writes (trace s)).
Proof.
  split; [intros s; now apply readFromDisk_disabled |].
  split.
  { intros outputPath s. unfold load, bind.
    now rewrite readFromDisk_disabled. }
  split; [intros stats s; now apply writeToDisk_disabled |].
  split; [intros items s; now apply save_disabled |].
  split.
  - intros assets s sizes assetNames items Hsizes Hitems.
    exists (if Options.save o
            then [SaveHook (stats_of (now E) (Options.compression o)
                              (Options.compressionLevel o) items)]
            else []).
    split; [| now destruct (Options.save o)].
    unfold outputSizes. unfold bind at 1, get_state.
    unfold outputSizes_rest. unfold bind at 1, get_state.
    fold assetNames. unfold bind at 1, lift. rewrite Hsizes.
    fold items. unfold bind. rewrite save_disabled by assumption.
    destruct items as [| it rest]; [congruence |].
    unfold emit. cbn [history trace pattern initialSizes isSingleChunk].
    now rewrite app_assoc.
  - split.
    + intros outputOptions bundle s.
      apply (no_write_generateBundle E o outputOptions bundle Hoff s).
    + intros outputOptions bundle s.
      apply (no_write_build E o outputOptions bundle Hoff s).
Qed.

Lemma writeFile_off_ignores_history_witness :
  load sample_env options_off "dist" sample_state =
    (Ok [("a.js", Js.num 2); ("b.js", Js.num 3)], sample_state)
  /\ history
       (snd (generateBundle sample_env options_off
               (mkOutputOptions (Some "dist") None) sample_bundle sample_state))
     = Stored sample_history
  /\ history
       (snd (build sample_env options_off
               (mkOutputOptions (Some "dist") None) sample_bundle sample_state))
     = Stored sample_history.
Proof.
  destruct (writeFile_off_ignores_history sample_env options_off eq_refl)
    as [_ [Hload [_ [_ [_ [Hhook Hrun]]]]]].
  split; [| split].
  - rewrite Hload. reflexivity.
  - apply Hhook.
  - apply Hrun.
Defined.

(** ** Computations that leave [pattern] and [isSingleChunk] alone *)

Lemma keeps_closure_eq {A : Type} (m : M A) :
  (forall s, snd (m s) = s) -> keeps_closure m.
Proof. intros H s. rewrite H. split; reflexivity. Qed.

Lemma keeps_closure_bind {A B : Type} (m : M A) (k : A -> M B) :
  keeps_closure m -> (forall a, keeps_closure (k a)) -> keeps_closure (bind m k).
Proof.
  intros Hm Hk s. unfold bind. specialize (Hm s).
  destruct (m s) as [[a | e] s']; simpl in Hm; [| exact Hm].
  destruct (Hk a s') as [H1 H2]. destruct Hm as [H3 H4]. split; congruence.
Qed.

Lemma keeps_closure_catch {A : Type} (m : M A) (handler : error -> M A) :
  keeps_closure m -> (forall e, keeps_closure (handler e)) ->
  keeps_closure (catch m handler).
Proof.
  intros Hm Hh s. unfold catch. specialize (Hm s).
  destruct (m s) as [[a | e] s']; simpl in Hm; [exact Hm |].
  destruct (Hh e s') as [H1 H2]. destruct Hm as [H3 H4]. split; congruence.
Qed.

Lemma keeps_closure_emit (e : Event) : keeps_closure (emit e).
Proof. intros s. split; reflexivity. Qed.

Lemma keeps_closure_set_history (h : FileContent) : keeps_closure (set_history h).
Proof. intros s. split; reflexivity. Qed.

Lemma keeps_closure_load (E : Env) (o : Options.t) (outputPath : string) :
  keeps_closure (load E o outputPath).
Proof.
  apply keeps_closure_eq. intros s. unfold load, bind.
  rewrite readFromDisk_total.
  destruct (if Options.writeFile o then _ else _); [| reflexivity].
  now rewrite getSizes_total.
Qed.

Lemma keeps_closure_writeToDisk (o : Options.t) (stats : Snapshot) :
  keeps_closure (writeToDisk o stats).
Proof.
  unfold writeToDisk. destruct (existsb _ _); [| now apply keeps_closure_eq].
  apply keeps_closure_bind.
  { apply keeps_closure_eq. intros s. now rewrite readFromDisk_total. }
  intros data. destruct (Options.writeFile o); [| now apply keeps_closure_eq].
  apply keeps_closure_bind.
  - unfold ensureFile.
    apply keeps_closure_bind; [now apply keeps_closure_eq | intros s0].
    apply keeps_closure_bind; [apply keeps_closure_emit | intros _].
    destruct (history s0);
      [apply keeps_closure_set_history | | ]; now apply keeps_closure_eq.
  - intros _. unfold writeJSON.
    apply keeps_closure_bind; [apply keeps_closure_emit | intros _].
    apply keeps_closure_set_history.
Qed.

Lemma keeps_closure_outputSizes_rest (E : Env) (o : Options.t)
  (assets : OutputBundle) (sizesBefore : Js.object) :
  keeps_closure (outputSizes_rest E o assets sizesBefore).
Proof.
  unfold outputSizes_rest.
  apply keeps_closure_bind; [now apply keeps_closure_eq | intros s0].
  apply keeps_closure_bind; [now apply keeps_closure_eq | intros sizes].
  apply keeps_closure_bind.
  - unfold save. apply keeps_closure_bind.
    + destruct (Options.save o);
        [apply keeps_closure_emit | now apply keeps_closure_eq].
    + intros _. apply keeps_closure_writeToDisk.
  - intros _. destruct (items_of _ _);
      [now apply keeps_closure_eq | apply keeps_closure_emit].
Qed.

Lemma keeps_closure_outputSizes (E : Env) (o : Options.t) (assets : OutputBundle) :
  keeps_closure (outputSizes E o assets).
Proof.
  unfold outputSizes.
  apply keeps_closure_bind; [now apply keeps_closure_eq | intros s0].
  apply keeps_closure_outputSizes_rest.
Qed.

Lemma keeps_closure_detached (E : Env) (o : Options.t) (bundle : OutputBundle)
  (sizesBefore : Js.object) :
  keeps_closure (detached_outputSizes E o bundle sizesBefore).
Proof.
  unfold detached_outputSizes.
  apply keeps_closure_catch; [apply keeps_closure_outputSizes_rest |].
  intros e. apply keeps_closure_emit.
Qed.

(** What [generateBundle] leaves in [pattern] and [isSingleChunk]. *)
Lemma generateBundle_closure (E : Env) (o : Options.t)
  (outputOptions : OutputOptions) (bundle : OutputBundle) (s : State)
  (_path : string) :
  output_path E outputOptions = Ok _path ->
  let s' := snd (generateBundle E o outputOptions bundle s) in
  pattern s' =
    match chunks_of bundle with
    | [only] => fileName only
    | _ => pattern s
    end
  /\ isSingleChunk s' = Nat.eqb (List.length (chunks_of bundle)) 1.
Proof.
  intros Hpath s'. subst s'.
  rewrite (generateBundle_result E o outputOptions bundle s _path Hpath).
  cbv zeta. destruct (fst (load E o _path _)); split; reflexivity.
Qed.

(** The selection after a build with a single artifact, a chunk stored
    under its file name: the pattern is that name, and the name is selected
    exactly when it matches itself as a pattern and is not excluded. *)
Lemma single_chunk_selection (E : Env) (o : Options.t)
  (outputOptions : OutputOptions) (s : State) (only : OutputFile)
  (_path : string) :
  output_path E outputOptions = Ok _path ->
  type only = chunk ->
  let bundle := [(fileName only, only)] in
  let s' := snd (generateBundle E o outputOptions bundle s) in
  pattern s' = fileName only
  /\ isSingleChunk s' = true
  /\ filterFiles E o (pattern s') (map fst bundle) =
     if minimatch E (fileName only) (fileName only)
        && negb (negb (String.eqb (Options.exclude o) "")
                 && minimatch E (fileName only) (Options.exclude o))
     then [fileName only] else [].
Proof.
  intros Hpath Hchunk bundle s'.
  destruct (generateBundle_closure E o outputOptions bundle s _path Hpath)
    as [Hp Hc].
  fold s' in Hp, Hc. unfold bundle, chunks_of in Hp, Hc.
  cbn [map snd filter] in Hp, Hc. rewrite Hchunk in Hp, Hc.
  simpl in Hc. split; [exact Hp | split; [exact Hc |]].
  rewrite Hp. unfold filterFiles, bundle. cbn [map fst filter].
  destruct (String.eqb (Options.exclude o) "");
    destruct (minimatch E (fileName only) (fileName only));
    try destruct (minimatch E (fileName only) (Options.exclude o));
    reflexivity.
Qed.

(** C5 (the code departs from the claim).  The build produces the single
    chunk [pages/[id].js].  [generateBundle] overrides the pattern with that
    file name, but [filterFiles] reads it as a glob pattern, in which [[id]]
    stands for one of the characters [i] and [d]: the name does not match
    itself, no artifact is selected, and the build reports and saves
    nothing.  Nothing in the code escapes the file name. *)
Theorem single_chunk_with_glob_characters_is_not_selected :
  let s := initial Options.default Absent in
  let s1 := snd (generateBundle env_brackets Options.default
                   (mkOutputOptions (Some "dist") None) bracket_bundle s) in
  map fst bracket_bundle = ["pages/[id].js"]
  /\ List.length (chunks_of bracket_bundle) = 1%nat
  /\ pattern s = "**/*.{mjs,js,jsx,css,html}"
  /\ pattern s1 = "pages/[id].js"
  /\ isSingleChunk s1 = true
  /\ minimatch env_brackets "pages/[id].js" (pattern s1) = false
  /\ filterFiles env_brackets Options.default (pattern s1)
       (map fst bracket_bundle) = []
  /\ build env_brackets Options.default
       (mkOutputOptions (Some "dist") None) bracket_bundle s
     = (Ok tt, s1)
  /\ trace s1 = [].
Proof. repeat split. Qed.

(** ** [Promise.all] and [toMap] *)

Lemma Promise_all_ok {A B : Type} (f : A -> result B) (l : list A)
  (vs : list B) :
  Promise_all (map f l) = Ok vs -> Forall2 (fun x v => f x = Ok v) l vs.
Proof.
  revert vs. induction l as [| x l IH]; simpl; intros vs H.
  - injection H as <-. constructor.
  - destruct (f x) as [v | e] eqn:Hx; [| discriminate].
    destruct (Promise_all (map f l)) as [r | e]; [| discriminate].
    injection H as <-. constructor; [assumption | now apply IH].
Qed.

Lemma Promise_all_err {A B : Type} (f : A -> result B) (l : list A) (e : error) :
  (forall x, In x l -> f x = Err e \/ exists v, f x = Ok v) ->
  (exists x, In x l /\ f x = Err e) ->
  Promise_all (map f l) = Err e.
Proof.
  induction l as [| x l IH]; intros Hall [y [Hy Hey]]; [destruct Hy |].
  simpl. destruct (Hall x (or_introl eq_refl)) as [Hx | [v Hx]]; rewrite Hx;
    [reflexivity |].
  rewrite IH; [reflexivity | |].
  - intros z Hz. apply Hall. now right.
  - destruct Hy as [-> | Hy]; [congruence | now exists y].
Qed.

Lemma toMap_from_shift (i : nat) (names : list string) (v : Js.value)
  (values : list Js.value) (acc : Js.object) :
  utils.toMap_from (S i) names (v :: values) acc =
  utils.toMap_from i names values acc.
Proof.
  revert i acc. induction names as [| n names IH]; intros i acc; simpl;
    [reflexivity | apply IH].
Qed.

Lemma toMap_from_aligned (names : list string) (values : list Js.value)
  (acc : Js.object) :
  List.length names = List.length values ->
  NoDup (Js.keys acc ++ names) ->
  utils.toMap_from 0 names values acc = acc ++ combine names values.
Proof.
  revert values acc. induction names as [| n names IH]; intros values acc Hlen Hnd.
  - simpl. now rewrite app_nil_r.
  - destruct values as [| v values]; [discriminate |].
    cbn [utils.toMap_from nth combine]. rewrite toMap_from_shift.
    pose proof (NoDup_remove_2 _ _ _ Hnd) as Hn.
    rewrite set_absent by (intros Hin; apply Hn, in_or_app; tauto).
    rewrite IH.
    + now rewrite <- app_assoc.
    + simpl in Hlen. lia.
    + unfold Js.keys in *. rewrite map_app, <- app_assoc. exact Hnd.
Qed.

Lemma toMap_aligned (names : list string) (values : list Js.value) :
  List.length names = List.length values -> NoDup names ->
  utils.toMap names values = combine names values.
Proof.
  intros Hlen Hnd. unfold utils.toMap. now rewrite toMap_from_aligned.
Qed.

Lemma get_combine {A : Type} (f : A -> result Js.value) (g : A -> string)
  (l : list A) (values : list Js.value) (x : A) :
  Forall2 (fun y v => f y = Ok v) l values ->
  (forall y, In y l -> g y = g x -> y = x) ->
  In x l ->
  f x = Ok (Js.get (combine (map g l) values) (g x)).
Proof.
  induction 1 as [| y v l values Hy _ IH]; intros Hinj Hin; [destruct Hin |].
  simpl. destruct (String.eqb_spec (g y) (g x)) as [He | Hne].
  - rewrite <- (Hinj y (or_introl eq_refl) He). exact Hy.
  - destruct Hin as [-> | Hin]; [congruence |].
    apply IH; [| assumption]. intros z Hz. apply Hinj. now right.
Qed.

(** C8 (the code departs from the claim).  [getSizes] measures the files
    that pass [filterFiles] but hands [toMap] the unfiltered list of globbed
    names.  When [glob] returns [a.js] and [b.js] and the filter rejects
    [a.js], the only measured size, that of [b.js], is stored under [a.js]
    and [b.js] is stored as [undefined]; [outputSizes], by contrast, passes
    the filtered names. *)
Theorem getSizes_misaligns_filtered_sizes :
  let s := initial options_none Absent in
  glob env_disagree (pattern s) "dist" (Options.exclude options_none)
    = ["a.js"; "b.js"]
  /\ filterFiles env_disagree options_none (pattern s) ["a.js"; "b.js"]
     = ["b.js"]
  /\ measure_file env_disagree options_none "dist" "a.js" = Ok (Js.num 2)
  /\ measure_file env_disagree options_none "dist" "b.js" = Ok (Js.num 3)
  /\ getSizes env_disagree options_none "dist" s
     = (Ok [("a.js", Js.num 3); ("b.js", Js.undefined)], s).
Proof. repeat split. Qed.

(** ** Files that cannot be read *)

Lemma measure_file_unreadable (E : Env) (o : Options.t) (cwd file : string) :
  readFile E cwd file = None -> measure_file E o cwd file = Ok Js.null.
Proof. intros H. unfold measure_file. now rewrite H. Qed.

Lemma getSizes_aligned (E : Env) (o : Options.t) (cwd : string) (s : State)
  (m : Js.object) :
  let files := glob E (pattern s) cwd (Options.exclude o) in
  NoDup files ->
  filterFiles E o (pattern s) files = files ->
  fst (getSizes E o cwd s) = Ok m ->
  Js.keys m = files
  /\ forall file, In file files ->
       measure_file E o cwd file = Ok (Js.get m file).
Proof.
  intros files Hnd Hall Hm. rewrite getSizes_total in Hm. cbn [fst] in Hm.
  fold files in Hm. rewrite Hall in Hm.
  destruct (Promise_all (map (measure_file E o cwd) files)) as [sizes | e] eqn:Hs;
    [| discriminate].
  simpl in Hm. injection Hm as <-.
  apply Promise_all_ok in Hs.
  pose proof (Forall2_length Hs) as Hlen.
  rewrite toMap_aligned by assumption. split.
  - unfold Js.keys. clear -Hs. induction Hs; simpl; congruence.
  - intros file Hin.
    pose proof (get_combine (measure_file E o cwd) (fun x => x) files sizes
                  file Hs) as H.
    rewrite map_id in H. apply H; [intros; assumption | assumption].
Qed.

(** C9 as stated fails: after a scan in which [gone.js] cannot be read, the
    baseline map still has the key [gone.js]. *)
Lemma unreadable_file_keeps_its_key_counterexample :
  ~ (forall (E : Env) (o : Options.t) (cwd : string) (s : State)
            (m : Js.object) (file : string),
        In file (filterFiles E o (pattern s)
                   (glob E (pattern s) cwd (Options.exclude o))) ->
        readFile E cwd file = None ->
        fst (getSizes E o cwd s) = Ok m ->
        ~ In file (Js.keys m)).
Proof.
  intros H.
  apply (H env_gone options_none "dist" (initial options_none Absent)
           [("a.js", Js.num 2); ("gone.js", Js.null)] "gone.js").
  - simpl. tauto.
  - reflexivity.
  - reflexivity.
  - simpl. tauto.
Qed.

(** C9, amended.  A file of the baseline scan that cannot be read never
    makes the scan fail: its measurement is [null].  When the filter keeps
    every globbed name, the baseline map keeps the file's key with the value
    [null], and the comparison has a record for the file whose previous size
    is 0. *)
Theorem unreadable_file_is_null_and_counts_as_zero (E : Env) (o : Options.t)
  (cwd : string) (s : State) (m : Js.object) (file : string)
  (Hnodup : NoDup (glob E (pattern s) cwd (Options.exclude o)))
  (Hall : filterFiles E o (pattern s)
            (glob E (pattern s) cwd (Options.exclude o))
          = glob E (pattern s) cwd (Options.exclude o))
  (Hin : In file (glob E (pattern s) cwd (Options.exclude o)))
  (Hgone : readFile E cwd file = None)
  (Hscan : fst (getSizes E o cwd s) = Ok m) :
  measure_file E o cwd file = Ok Js.null
  /\ In file (Js.keys m)
  /\ Js.get m file = Js.null
  /\ forall after, NoDup (Js.keys after) ->
       exists d, In d (reconcile m after)
                 /\ filename d = file /\ previous d = 0%Z.
Proof.
  pose proof (measure_file_unreadable E o cwd file Hgone) as Hnull.
  destruct (getSizes_aligned E o cwd s m Hnodup Hall Hscan) as [Hkeys Hget].
  assert (Js.get m file = Js.null) as Hval.
  { specialize (Hget file Hin). congruence. }
  split; [exact Hnull |]. split; [now rewrite Hkeys |]. split; [exact Hval |].
  intros after Hafter.
  assert (NoDup (Js.keys m)) as Hm by now rewrite Hkeys.
  destruct (reconcile_names_and_previous m after Hm Hafter) as [Hnames Hrec].
  assert (In file (map filename (reconcile m after))) as Hfile.
  { rewrite Hnames. apply in_or_app. left. now rewrite Hkeys. }
  apply in_map_iff in Hfile. destruct Hfile as [d [Hd Hind]].
  exists d. split; [assumption |]. split; [assumption |].
  rewrite (Hrec d Hind), Hd, Hval. reflexivity.
Qed.

Lemma unreadable_file_is_null_and_counts_as_zero_witness :
  Js.get [("a.js", Js.num 2); ("gone.js", Js.null)] "gone.js" = Js.null
  /\ exists d, In d (reconcile [("a.js", Js.num 2); ("gone.js", Js.null)]
                       sample_after)
               /\ filename d = "gone.js" /\ previous d = 0%Z.
Proof.
  assert (NoDup ["a.js"; "gone.js"]) as Hnd.
  { repeat constructor; simpl; intuition discriminate. }
  assert (NoDup (Js.keys sample_after)) as Hafter.
  { repeat constructor; simpl; intuition discriminate. }
  destruct (unreadable_file_is_null_and_counts_as_zero env_gone options_none
              "dist" (initial options_none Absent)
              [("a.js", Js.num 2); ("gone.js", Js.null)] "gone.js"
              Hnd eq_refl (or_intror (or_introl eq_refl)) eq_refl eq_refl)
    as [_ [_ [Hval Hrec]]].
  split; [exact Hval | exact (Hrec sample_after Hafter)].
Defined.

(** ** Measuring without brotli *)

Lemma bundle_get_key (assets : OutputBundle) (name : string) :
  In name (map fst assets) -> exists f, bundle_get assets name = Some f.
Proof.
  induction assets as [| [k f] assets IH]; simpl; intros H; [destruct H |].
  destruct (String.eqb_spec k name) as [-> | Hne]; [now exists f |].
  destruct H as [H | H]; [congruence | now apply IH].
Qed.

Lemma filterFiles_incl (E : Env) (o : Options.t) (p : string)
  (files : list string) (x : string) :
  In x (filterFiles E o p files) -> In x files.
Proof. unfold filterFiles. intros H. now apply filter_In in H. Qed.

Section NoBrotli.

Variable E : Env.
Variable o : Options.t.
Hypothesis Hmode : Options.compression o = brotli.
Hypothesis Hmissing : zlib_brotliCompress E = None.

Lemma getCompressedSize_no_brotli (source : option buffer) :
  getCompressedSize E o source = Err BrotliNotSupported.
Proof. unfold getCompressedSize. now rewrite Hmode, Hmissing. Qed.

Lemma measure_file_no_brotli (cwd file : string) :
  measure_file E o cwd file =
  match readFile E cwd file with
  | Some _ => Err BrotliNotSupported
  | None => Ok Js.null
  end.
Proof.
  unfold measure_file. destruct (readFile E cwd file); [| reflexivity].
  now rewrite getCompressedSize_no_brotli.
Qed.

Lemma getSizes_no_brotli (cwd : string) (s : State) :
  (exists file,
      In file (filterFiles E o (pattern s)
                 (glob E (pattern s) cwd (Options.exclude o)))
      /\ readFile E cwd file <> None) ->
  getSizes E o cwd s = (Err BrotliNotSupported, s).
Proof.
  intros [file [Hin Hread]]. rewrite getSizes_total. cbv zeta.
  rewrite (Promise_all_err (measure_file E o cwd) _ BrotliNotSupported).
  - reflexivity.
  - intros x _. rewrite measure_file_no_brotli.
    destruct (readFile E cwd x); [now left | right; now exists Js.null].
  - exists file. split; [assumption |]. rewrite measure_file_no_brotli.
    destruct (readFile E cwd file); [reflexivity | congruence].
Qed.

Lemma outputSizes_rest_no_brotli (assets : OutputBundle)
  (sizesBefore : Js.object) (s : State) :
  filterFiles E o (pattern s) (map fst assets) <> [] ->
  outputSizes_rest E o assets sizesBefore s = (Err BrotliNotSupported, s).
Proof.
  intros Hsel. unfold outputSizes_rest. unfold bind at 1, get_state.
  unfold bind at 1, lift.
  assert (forall x, In x (filterFiles E o (pattern s) (map fst assets)) ->
                    measure_asset E o assets x = Err BrotliNotSupported) as Hm.
  { intros x Hx. apply filterFiles_incl, bundle_get_key in Hx.
    destruct Hx as [f Hf]. unfold measure_asset. rewrite Hf.
    now rewrite getCompressedSize_no_brotli. }
  rewrite (Promise_all_err (measure_asset E o assets) _ BrotliNotSupported).
  - reflexivity.
  - intros x Hx. left. now apply Hm.
  - destruct (filterFiles E o (pattern s) (map fst assets)) as [| x l];
      [congruence |].
    exists x. split; [now left | apply Hm; now left].
Qed.

Lemma outputSizes_no_brotli (assets : OutputBundle) (s : State) :
  filterFiles E o (pattern s) (map fst assets) <> [] ->
  outputSizes E o assets s = (Err BrotliNotSupported, s).
Proof.
  intros Hsel. unfold outputSizes. unfold bind at 1, get_state.
  now apply outputSizes_rest_no_brotli.
Qed.

Lemma detached_no_brotli (bundle : OutputBundle) (sizesBefore : Js.object)
  (s : State) :
  filterFiles E o (pattern s) (map fst bundle) <> [] ->
  detached_outputSizes E o bundle sizesBefore s =
  (Ok tt,
   mkState (history s) (trace s ++ [ConsoleError BrotliNotSupported])
     (pattern s) (initialSizes s) (isSingleChunk s)).
Proof.
  intros Hsel. unfold detached_outputSizes, catch.
  now rewrite outputSizes_rest_no_brotli.
Qed.

End NoBrotli.

(** C10 as stated fails: with a stored history and no brotli in the
    environment, measuring the chunks of the build fails, yet
    [generateBundle] resolves, before the measurement has even run; the
    error of the call it left running only reaches the console. *)
Lemma brotli_failure_is_logged_counterexample :
  Options.compression options_brotli = brotli
  /\ zlib_brotliCompress sample_env = None
  /\ filterFiles sample_env options_brotli
       (pattern (initial options_brotli (Stored sample_history)))
       (map fst sample_bundle) = ["a.js"; "b.js"]
  /\ measure_asset sample_env options_brotli sample_bundle "a.js"
     = Err BrotliNotSupported
  /\ resolved (fst (generateBundle sample_env options_brotli
                      (mkOutputOptions (Some "dist") None) sample_bundle
                      (initial options_brotli (Stored sample_history))))
     = true
  /\ snd (generateBundle sample_env options_brotli
            (mkOutputOptions (Some "dist") None) sample_bundle
            (initial options_brotli (Stored sample_history)))
     = mkState (Stored sample_history) []
         (Options.pattern options_brotli)
         [("a.js", Js.num 1200); ("c.js", Js.num 7)] false
  /\ build sample_env options_brotli
       (mkOutputOptions (Some "dist") None) sample_bundle
       (initial options_brotli (Stored sample_history))
     = (Ok tt,
        mkState (Stored sample_history) [ConsoleError BrotliNotSupported]
          (Options.pattern options_brotli)
          [("a.js", Js.num 1200); ("c.js", Js.num 7)] false).
Proof. repeat split. Qed.

(** C10, amended.  In brotli mode without [zlib.brotliCompress]
    [getCompressedSize] fails on every input.  In the baseline scan the
    failure propagates: [getSizes] fails as soon as one selected file can be
    read, and with it [load] and [generateBundle] when there is no history
    to load.  In the measurement of the current build [outputSizes] fails
    too, but [generateBundle] does not fail with it: with a stored history
    to load it resolves, and the call of [outputSizes] that it left running
    ends in the handler that logs the error.  In mode [none] the size of a
    buffer is its byte length. *)
Theorem brotli_unavailable_fails_every_measure (E : Env) (o : Options.t) :
  (Options.compression o = brotli -> zlib_brotliCompress E = None ->
   (forall source, getCompressedSize E o source = Err BrotliNotSupported)
   /\ (forall cwd s,
         (exists file,
             In file (filterFiles E o (pattern s)
                        (glob E (pattern s) cwd (Options.exclude o)))
             /\ readFile E cwd file <> None) ->
         getSizes E o cwd s = (Err BrotliNotSupported, s)
         /\ (readFromDisk o s = (Ok [], s) ->
             load E o cwd s = (Err BrotliNotSupported, s)))
   /\ (forall outputOptions bundle s _path,
         output_path E outputOptions = Ok _path ->
         no_history o (history s) ->
         (let p := match chunks_of bundle with
                   | [only] => fileName only
                   | _ => pattern s
                   end in
          exists file,
            In file (filterFiles E o p (glob E p _path (Options.exclude o)))
            /\ readFile E _path file <> None) ->
         fst (generateBundle E o outputOptions bundle s)
         = Err BrotliNotSupported
         /\ fst (build E o outputOptions bundle s) = Err BrotliNotSupported)
   /\ (forall assets s,
         filterFiles E o (pattern s) (map fst assets) <> [] ->
         outputSizes E o assets s = (Err BrotliNotSupported, s)
         /\ catch (outputSizes E o assets) (fun e => emit (ConsoleError e)) s
            = (Ok tt,
               mkState (history s)
                 (trace s ++ [ConsoleError BrotliNotSupported])
                 (pattern s) (initialSizes s) (isSingleChunk s)))
   /\ (forall outputOptions bundle s _path data,
         output_path E outputOptions = Ok _path ->
         Options.writeFile o = true ->
         history s = Stored data ->
         data <> [] ->
         (let p := match chunks_of bundle with
                   | [only] => fileName only
                   | _ => pattern s
                   end in
          filterFiles E o p (map fst bundle) <> []) ->
         exists task s1,
           generateBundle E o outputOptions bundle s = (Ok task, s1)
           /\ history s1 = history s
           /\ trace s1 = trace s
           /\ task s1 =
              (Ok tt,
               mkState (history s1)
                 (trace s1 ++ [ConsoleError BrotliNotSupported])
                 (pattern s1) (initialSizes s1) (isSingleChunk s1))
           /\ build E o outputOptions bundle s = task s1))
  /\ (Options.compression o = none ->
      forall src, getCompressedSize E o (Some src) = Ok (byteLength src)).
Proof.
  split.
  - intros Hc Hb. split; [| split; [| split; [| split]]].
    + intros source. now apply getCompressedSize_no_brotli.
    + intros cwd s Hfile.
      pose proof (getSizes_no_brotli E o Hc Hb cwd s Hfile) as Hscan.
      split; [exact Hscan |].
      intros Hread. unfold load, bind. rewrite Hread. exact Hscan.
    + intros outputOptions bundle s _path Hpath Hnone Hfile.
      assert (generateBundle E o outputOptions bundle s
              = (Err BrotliNotSupported,
                 mkState (history s) (trace s)
                   (match chunks_of bundle with
                    | [only] => fileName only
                    | _ => pattern s
                    end)
                   (initialSizes s)
                   (Nat.eqb (List.length (chunks_of bundle)) 1))) as Hrun.
      { rewrite (generateBundle_result E o outputOptions bundle s _path Hpath).
        cbv zeta. set (s1 := mkState _ _ _ _ _).
        assert (load E o _path s1 = (Err BrotliNotSupported, s1)) as Hload.
        { unfold load, bind.
          rewrite (readFromDisk_no_history o s1) by exact Hnone.
          apply (getSizes_no_brotli E o Hc Hb _path s1). exact Hfile. }
        rewrite Hload. reflexivity. }
      split; [now rewrite Hrun |]. unfold build, bind. now rewrite Hrun.
    + intros assets s Hsel.
      pose proof (outputSizes_no_brotli E o Hc Hb assets s Hsel) as Hout.
      split; [exact Hout |]. unfold catch. rewrite Hout. reflexivity.
    + intros outputOptions bundle s _path data Hpath Hon Hstored Hdata Hsel.
      cbv zeta in Hsel.
      destruct (sort_desc_nonempty data Hdata) as [latest [rest Hsort]].
      set (p := match chunks_of bundle with
                | [only] => fileName only
                | _ => pattern s
                end) in *.
      set (sizes := utils.toFileMap (files latest)).
      set (s1 := mkState (history s) (trace s) p sizes
                   (Nat.eqb (List.length (chunks_of bundle)) 1)).
      assert (generateBundle E o outputOptions bundle s
              = (Ok (detached_outputSizes E o bundle sizes), s1)) as Hrun.
      { rewrite (generateBundle_result E o outputOptions bundle s _path Hpath).
        cbv zeta. fold p. set (s0 := mkState _ _ p _ _).
        assert (load E o _path s0 = (Ok sizes, s0)) as Hload.
        { unfold load, bind.
          rewrite (readFromDisk_stored o s0 data Hon Hstored), Hsort.
          reflexivity. }
        rewrite Hload. reflexivity. }
      exists (detached_outputSizes E o bundle sizes), s1.
      split; [exact Hrun |]. split; [reflexivity |]. split; [reflexivity |].
      split.
      * apply (detached_no_brotli E o Hc Hb bundle sizes s1). exact Hsel.
      * unfold build, bind. rewrite Hrun. reflexivity.
  - intros Hc src. unfold getCompressedSize. now rewrite Hc.
Qed.

Lemma brotli_unavailable_fails_every_measure_witness :
  getCompressedSize sample_env options_brotli (Some [Byte.x61])
    = Err BrotliNotSupported
  /\ fst (generateBundle sample_env options_brotli
            (mkOutputOptions (Some "dist") None) sample_bundle
            (initial options_brotli Absent))
     = Err BrotliNotSupported
  /\ (exists task s1,
        generateBundle sample_env options_brotli
          (mkOutputOptions (Some "dist") None) sample_bundle
          (initial options_brotli (Stored sample_history)) = (Ok task, s1)
        /\ trace s1 = []
        /\ trace (snd (task s1)) = [ConsoleError BrotliNotSupported]
        /\ fst (task s1) = Ok tt)
  /\ getCompressedSize sample_env options_none (Some [Byte.x61; Byte.x3b])
     = Ok 2%Z.
Proof.
  destruct (brotli_unavailable_fails_every_measure sample_env options_brotli)
    as [Hbrotli _].
  destruct (Hbrotli eq_refl eq_refl) as [Hmeasure [_ [Hbuild [_ Hhook]]]].
  destruct (brotli_unavailable_fails_every_measure sample_env options_none)
    as [_ Hnone].
  split; [apply Hmeasure |]. split; [| split].
  - apply (Hbuild (mkOutputOptions (Some "dist") None) sample_bundle
             (initial options_brotli Absent) "dist" eq_refl).
    + right. intros data Hdata. discriminate Hdata.
    + exists "a.js". split; [simpl; tauto | discriminate].
  - assert (sample_history <> []) as Hne by discriminate.
    assert (filterFiles sample_env options_brotli
              (pattern (initial options_brotli (Stored sample_history)))
              (map fst sample_bundle) <> []) as Hsel by discriminate.
    destruct (Hhook (mkOutputOptions (Some "dist") None) sample_bundle
                (initial options_brotli (Stored sample_history)) "dist"
                sample_history eq_refl eq_refl eq_refl Hne Hsel)
      as [task [s1 [Hrun [_ [Htrace [Htask _]]]]]].
    exists task, s1. split; [exact Hrun |]. split; [exact Htrace |].
    rewrite Htask. cbn [fst snd trace]. rewrite Htrace. now split.
  - apply (Hnone eq_refl).
Defined.

(** * Further properties of the code *)

(** ** [toMap] as a map *)

Lemma toMap_from_get_other (names : list string) (values : list Js.value)
  (acc : Js.object) (i : nat) (k : string) :
  ~ In k names ->
  Js.get (utils.toMap_from i names values acc) k = Js.get acc k.
Proof.
  revert i acc. induction names as [| n names IH]; intros i acc Hk;
    [reflexivity |].
  cbn [utils.toMap_from]. rewrite IH by (simpl in Hk; tauto).
  apply get_set_other. simpl in Hk. tauto.
Qed.

Lemma toMap_from_get_last (pre post : list string) (k : string)
  (values : list Js.value) (acc : Js.object) (i : nat) :
  ~ In k post ->
  Js.get (utils.toMap_from i (pre ++ k :: post) values acc) k =
  nth (i + List.length pre) values Js.undefined.
Proof.
  intros Hk. revert i acc. induction pre as [| p pre IH]; intros i acc.
  - cbn [app utils.toMap_from]. rewrite toMap_from_get_other by assumption.
    rewrite get_set_same. f_equal. simpl. lia.
  - cbn [app utils.toMap_from]. rewrite IH. f_equal. simpl. lia.
Qed.

Lemma toMap_from_keys (names : list string) (values : list Js.value)
  (acc : Js.object) (i : nat) :
  NoDup (Js.keys acc) ->
  NoDup (Js.keys (utils.toMap_from i names values acc))
  /\ (forall k, In k (Js.keys (utils.toMap_from i names values acc)) <->
                In k (Js.keys acc) \/ In k names)
  /\ (NoDup (Js.keys acc ++ names) ->
      Js.keys (utils.toMap_from i names values acc) = Js.keys acc ++ names).
Proof.
  revert i acc. induction names as [| n names IH]; intros i acc Hacc.
  - simpl. split; [assumption |]. split; [tauto |]. now rewrite app_nil_r.
  - cbn [utils.toMap_from].
    destruct (IH (S i) (Js.set acc n (nth i values Js.undefined))
                (NoDup_keys_set _ _ _ Hacc)) as [Hnd [Hin Heq]].
    split; [exact Hnd |]. split.
    + intros k. rewrite Hin, in_keys_set. simpl. intuition.
    + intros Hall. pose proof (NoDup_remove_2 _ _ _ Hall) as Hn.
      assert (~ In n (Js.keys acc)) as Hfresh
          by (intros H; apply Hn, in_or_app; tauto).
      rewrite Heq.
      * rewrite set_absent by assumption. unfold Js.keys.
        rewrite map_app, <- app_assoc. reflexivity.
      * rewrite set_absent by assumption. unfold Js.keys in *.
        rewrite map_app, <- app_assoc. exact Hall.
Qed.

(** X1.  For plain names (none made of digits only, none a member of
    [Object.prototype]) [toMap] builds a proper map: its keys are the names,
    each once; the value of a name is the element of [values] at the index
    of the last occurrence of the name, [undefined] when [values] is too
    short; a plain name that is not listed reads as [undefined].  For names
    without repetition the keys are the names in their order and the [i]-th
    name has the [i]-th value. *)
Theorem toMap_lookup (names : list string) (values : list Js.value)
  (Hplain : Forall (fun n => plain_name n = true) names) :
  let m := utils.toMap names values in
  NoDup (Js.keys m)
  /\ (forall k, In k (Js.keys m) <-> In k names)
  /\ (forall pre k post,
        names = pre ++ k :: post -> ~ In k post ->
        Js.get m k = nth (List.length pre) values Js.undefined)
  /\ (forall k, plain_name k = true -> ~ In k names ->
                Js.get m k = Js.undefined)
  /\ (NoDup names ->
      Js.keys m = names
      /\ forall i, (i < List.length names)%nat ->
           Js.get m (nth i names "") = nth i values Js.undefined).
Proof.
  intros m. subst m. unfold utils.toMap.
  destruct (toMap_from_keys names values [] 0 (NoDup_nil _))
    as [Hnd [Hin Heq]].
  split; [exact Hnd |]. split.
  { intros k. rewrite Hin. simpl. tauto. }
  split.
  { intros pre k post -> Hk. now rewrite toMap_from_get_last. }
  split.
  { intros k _ Hk. now rewrite toMap_from_get_other. }
  intros Hnames. split; [now apply Heq |].
  intros i Hi.
  destruct (nth_split names "" Hi) as [pre [post [Hsplit Hlen]]].
  rewrite Hsplit at 1. rewrite toMap_from_get_last; [now rewrite Hlen |].
  rewrite Hsplit in Hnames. apply NoDup_remove_2 in Hnames.
  intros H. apply Hnames, in_or_app. now right.
Qed.

Lemma toMap_lookup_witness :
  Js.get (utils.toMap ["a.js"; "b.js"; "a.js"] [Js.num 1; Js.num 2; Js.num 3])
    "a.js" = Js.num 3
  /\ Js.get (utils.toMap ["a.js"; "b.js"] [Js.num 1]) "b.js" = Js.undefined
  /\ Js.keys (utils.toMap ["b.js"; "a.js"] [Js.num 1; Js.num 2])
     = ["b.js"; "a.js"].
Proof.
  split; [| split].
  - destruct (toMap_lookup ["a.js"; "b.js"; "a.js"]
                [Js.num 1; Js.num 2; Js.num 3]) as [_ [_ [H _]]].
    + repeat constructor.
    + apply (H ["a.js"; "b.js"] "a.js" [] eq_refl). simpl. tauto.
  - destruct (toMap_lookup ["a.js"; "b.js"] [Js.num 1]) as [_ [_ [H _]]].
    + repeat constructor.
    + apply (H ["a.js"] "b.js" [] eq_refl). simpl. tauto.
  - destruct (toMap_lookup ["b.js"; "a.js"] [Js.num 1; Js.num 2])
      as [_ [_ [_ [_ H]]]].
    + repeat constructor.
    + apply H. repeat constructor; simpl; intuition discriminate.
Defined.

(** ** [dedupe] on arbitrary arrays *)

Lemma filter_dedupe_general (l pre suf : list string) :
  let r := Js.filter_from (fun x i => utils.dedupe x i (pre ++ l ++ suf))
             (List.length pre) l in
  NoDup r /\ forall y, In y r <-> In y l /\ ~ In y pre.
Proof.
  revert pre. induction l as [| x l IH]; intros pre r; subst r.
  - simpl. split; [constructor | tauto].
  - cbn [Js.filter_from app]. rewrite dedupe_at.
    specialize (IH (pre ++ [x])). cbv zeta in IH.
    rewrite <- app_assoc, length_app in IH. cbn [app List.length] in IH.
    replace (List.length pre + 1)%nat with (S (List.length pre)) in IH by lia.
    destruct IH as [Hnd Hin].
    assert (forall y, In y (pre ++ [x]) <-> In y pre \/ y = x) as Hpre.
    { intros y. rewrite in_app_iff. simpl. intuition. }
    destruct (existsb (String.eqb x) pre) eqn:Hx; cbn [negb].
    + split; [exact Hnd |]. intros y. rewrite Hin, Hpre.
      apply existsb_exists in Hx. destruct Hx as [z [Hz He]].
      apply String.eqb_eq in He. subst z. simpl.
      split; [tauto |]. intros [[<- | Hy] Hn]; [tauto |].
      split; [assumption |]. intros [H | ->]; tauto.
    + assert (~ In x pre) as Hxpre.
      { intros H. assert (existsb (String.eqb x) pre = true) as Ht.
        { apply existsb_exists. exists x. split; [assumption | apply String.eqb_refl]. }
        congruence. }
      split.
      * constructor; [| exact Hnd]. rewrite Hin, Hpre. tauto.
      * intros y. simpl. rewrite Hin, Hpre.
        destruct (string_dec x y) as [<- | Hne]; [tauto |].
        split; [intros [H | H]; [congruence | tauto] |].
        intros [[H | H] Hn]; [congruence |]. right.
        split; [assumption |]. intros [H' | H']; [tauto | congruence].
Qed.

Lemma unique_first_occurrences (arr : list string) :
  NoDup (Js.filter_indexed utils.dedupe arr)
  /\ forall x, In x (Js.filter_indexed utils.dedupe arr) -> In x arr.
Proof.
  pose proof (filter_dedupe_general arr [] []) as H. cbv zeta in H.
  simpl in H. rewrite app_nil_r in H. destruct H as [Hnd Hin].
  split; [exact Hnd |]. intros x Hx. now apply Hin in Hx.
Qed.

Lemma filter_filter {A : Type} (f g : A -> bool) (l : list A) :
  filter f (filter g l) = filter (fun x => g x && f x) l.
Proof.
  induction l as [| x l IH]; [reflexivity |]. simpl.
  destruct (g x); simpl; [destruct (f x) |]; now rewrite IH.
Qed.

(** The filter started in the middle of an array, after [pre], is the
    filter of the rest alone without the items of [pre]. *)
Lemma filter_dedupe_from (l pre suf suf' : list string) :
  Js.filter_from (fun x i => utils.dedupe x i (pre ++ l ++ suf))
    (List.length pre) l
  = filter (fun y => negb (existsb (String.eqb y) pre))
      (Js.filter_from (fun x i => utils.dedupe x i (l ++ suf')) 0 l).
Proof.
  revert pre suf suf'. induction l as [| x l IH]; intros pre suf suf';
    [reflexivity |].
  cbn [Js.filter_from app].
  rewrite dedupe_at.
  pose proof (dedupe_at [] (l ++ suf') x) as Hhead. cbn in Hhead.
  rewrite Hhead. cbn [filter].
  assert (Js.filter_from
            (fun y i => utils.dedupe y i (pre ++ x :: l ++ suf))
            (S (List.length pre)) l
          = filter (fun y => negb (existsb (String.eqb y) (pre ++ [x])))
              (Js.filter_from (fun y i => utils.dedupe y i (l ++ suf')) 0 l))
    as Htail.
  { specialize (IH (pre ++ [x]) suf suf').
    rewrite <- app_assoc, length_app in IH. cbn [app List.length] in IH.
    replace (List.length pre + 1)%nat with (S (List.length pre)) in IH by lia.
    exact IH. }
  assert (Js.filter_from (fun y i => utils.dedupe y i (x :: l ++ suf')) 1 l
          = filter (fun y => negb (existsb (String.eqb y) [x]))
              (Js.filter_from (fun y i => utils.dedupe y i (l ++ suf')) 0 l))
    as Hfirst.
  { exact (IH [x] suf' suf'). }
  rewrite Htail, Hfirst, filter_filter.
  assert (forall y,
             negb (existsb (String.eqb y) (pre ++ [x]))
             = negb (existsb (String.eqb y) [x])
               && negb (existsb (String.eqb y) pre)) as Hmem.
  { intros y. rewrite existsb_app. cbn [existsb].
    destruct (existsb (String.eqb y) pre), (String.eqb y x); reflexivity. }
  destruct (existsb (String.eqb x) pre); cbn [negb];
    [| f_equal]; apply filter_ext; exact Hmem.
Qed.

(** X2.  Filtering an array with [dedupe] keeps the first occurrence of
    each item and the order: the head of the array is kept, and what
    follows it is the filtered rest without the later occurrences of the
    head.  Hence the result has no repetition and the same elements, an
    array without repetition is returned as it is, and filtering twice
    changes nothing more. *)
Theorem dedupe_keeps_first_occurrences (arr : list string) :
  let r := Js.filter_indexed utils.dedupe arr in
  NoDup r
  /\ (forall x, In x r <-> In x arr)
  /\ (NoDup arr -> r = arr)
  /\ Js.filter_indexed utils.dedupe r = r
  /\ Js.filter_indexed utils.dedupe [] = []
  /\ (forall x rest,
        Js.filter_indexed utils.dedupe (x :: rest)
        = x :: filter (fun y => negb (String.eqb y x))
                 (Js.filter_indexed utils.dedupe rest))
  /\ (forall pre x post,
        arr = pre ++ x :: post -> ~ In x pre ->
        exists pre' post',
          r = pre' ++ x :: post'
          /\ (forall y, In y pre' <-> In y pre)).
Proof.
  intros r.
  assert (forall l, NoDup l -> Js.filter_indexed utils.dedupe l = l) as Hid.
  { intros l Hl. unfold Js.filter_indexed.
    pose proof (filter_dedupe_NoDup l [] [] Hl) as H.
    simpl in H. rewrite app_nil_r in H. rewrite H. clear H.
    induction l as [| x l IH]; simpl; [reflexivity |].
    f_equal. apply IH. now inversion Hl. }
  pose proof (filter_dedupe_general arr [] []) as H. cbv zeta in H.
  simpl in H. rewrite app_nil_r in H. destruct H as [Hnd Hin].
  fold (Js.filter_indexed utils.dedupe arr) in Hnd, Hin. fold r in Hnd, Hin.
  split; [exact Hnd |]. split; [| split; [| split; [| split; [| split]]]].
  - intros x. rewrite Hin. tauto.
  - apply Hid.
  - now apply Hid.
  - reflexivity.
  - intros x rest. unfold Js.filter_indexed. cbn [Js.filter_from].
    pose proof (dedupe_at [] rest x) as Hhead. cbn in Hhead. rewrite Hhead.
    f_equal.
    pose proof (filter_dedupe_from rest [x] [] []) as Hrest.
    cbn [app List.length] in Hrest. rewrite app_nil_r in Hrest.
    rewrite Hrest. apply filter_ext. intros y. cbn [existsb].
    now rewrite orb_false_r.
  - intros pre x post Harr Hx. subst r. rewrite Harr.
    unfold Js.filter_indexed. rewrite filter_from_app.
    cbn [Js.filter_from plus].
    pose proof (dedupe_at pre post x) as Hhead. rewrite Hhead.
    assert (existsb (String.eqb x) pre = false) as Hfresh.
    { destruct (existsb (String.eqb x) pre) eqn:He; [| reflexivity].
      apply existsb_exists in He. destruct He as [y [Hy He]].
      apply String.eqb_eq in He. subst y. contradiction. }
    rewrite Hfresh. cbn [negb].
    eexists. eexists. split; [reflexivity |].
    intros y.
    pose proof (filter_dedupe_general pre [] (x :: post)) as Hg.
    cbv zeta in Hg. cbn [app List.length] in Hg.
    destruct Hg as [_ Hg]. rewrite Hg. tauto.
Qed.

(** ** The selection of [filterFiles] *)

Lemma filter_idem {A : Type} (f : A -> bool) (l : list A) :
  filter f (filter f l) = filter f l.
Proof.
  induction l as [| x l IH]; [reflexivity |]. simpl.
  destruct (f x) eqn:Hx; simpl; [rewrite Hx; f_equal |]; exact IH.
Qed.

(** X3.  [filterFiles] keeps a name exactly when it matches the pattern and
    the exclude option is empty or does not match it.  It decides name by
    name and keeps the order (it distributes over concatenation), never
    introduces a repetition, and selecting twice selects the same. *)
Theorem filterFiles_selects (E : Env) (o : Options.t) (p : string)
  (files : list string) :
  (forall x, In x (filterFiles E o p files) <->
             In x files
             /\ minimatch E x p = true
             /\ (Options.exclude o = ""
                 \/ minimatch E x (Options.exclude o) = false))
  /\ (forall l1 l2, filterFiles E o p (l1 ++ l2) =
                    filterFiles E o p l1 ++ filterFiles E o p l2)
  /\ filterFiles E o p (filterFiles E o p files) = filterFiles E o p files
  /\ (NoDup files -> NoDup (filterFiles E o p files)).
Proof.
  unfold filterFiles. split; [| split; [| split]].
  - intros x. rewrite filter_In, andb_true_iff, negb_true_iff.
    destruct (String.eqb_spec (Options.exclude o) "") as [He | Hne].
    + intuition.
    + intuition congruence.
  - intros l1 l2. apply filter_app.
  - apply filter_idem.
  - apply NoDup_filter.
Qed.

(** ** The sizes of the current build *)

Lemma bundle_get_in (assets : OutputBundle) (name : string) (f : OutputFile) :
  bundle_get assets name = Some f -> In (name, f) assets.
Proof.
  induction assets as [| [k g] assets IH]; simpl; [discriminate |].
  destruct (String.eqb_spec k name) as [-> | Hne].
  - intros H. injection H as ->. now left.
  - intros H. right. now apply IH.
Qed.

(** X4.  When the measurement of the current build succeeds, the map
    [sizesAfter] of [outputSizes] has exactly the selected names as keys, in
    their order, and the value of each is a number: the size that
    [getCompressedSize] gives for the [code] that the bundle holds under
    that name.  (The bundle is an object, so its keys are distinct.) *)
Theorem outputSizes_sizes_are_aligned (E : Env) (o : Options.t)
  (assets : OutputBundle) (p : string) (sizes : list Js.value)
  (Hkeys : NoDup (map fst assets))
  (Hsizes : Promise_all
              (map (measure_asset E o assets)
                 (filterFiles E o p (map fst assets))) = Ok sizes) :
  let assetNames := filterFiles E o p (map fst assets) in
  let sizesAfter := utils.toMap assetNames sizes in
  Js.keys sizesAfter = assetNames
  /\ forall name, In name assetNames ->
       exists f n,
         In (name, f) assets
         /\ getCompressedSize E o (code f) = Ok n
         /\ Js.get sizesAfter name = Js.num n.
Proof.
  intros assetNames sizesAfter. subst sizesAfter.
  assert (NoDup assetNames) as Hnd.
  { unfold assetNames, filterFiles. now apply NoDup_filter. }
  apply Promise_all_ok in Hsizes. fold assetNames in Hsizes.
  pose proof (Forall2_length Hsizes) as Hlen.
  rewrite toMap_aligned by assumption. split.
  - unfold Js.keys. clear -Hsizes. induction Hsizes; simpl; congruence.
  - intros name Hin.
    pose proof (get_combine (measure_asset E o assets) (fun x => x)
                  assetNames sizes name Hsizes) as H.
    rewrite map_id in H. specialize (H (fun _ _ e => e) Hin).
    unfold measure_asset in H.
    destruct (bundle_get assets name) as [f |] eqn:Hf; [| discriminate].
    destruct (getCompressedSize E o (code f)) as [n | e] eqn:Hn;
      [| discriminate].
    simpl in H. injection H as H.
    exists f, n. split; [now apply bundle_get_in |]. split; [exact Hn |].
    now symmetry.
Qed.

Lemma outputSizes_sizes_are_aligned_witness :
  Js.keys (utils.toMap ["a.js"; "b.js"] [Js.num 3; Js.num 3])
    = ["a.js"; "b.js"]
  /\ exists f n,
       In ("a.js", f) sample_bundle
       /\ getCompressedSize sample_env options_none (code f) = Ok n
       /\ Js.get (utils.toMap ["a.js"; "b.js"] [Js.num 3; Js.num 3]) "a.js"
          = Js.num n.
Proof.
  assert (NoDup (map fst sample_bundle)) as Hnd.
  { repeat constructor; simpl; intuition discriminate. }
  destruct (outputSizes_sizes_are_aligned sample_env options_none
              sample_bundle "*.js" [Js.num 3; Js.num 3] Hnd eq_refl)
    as [Hk Hv].
  split; [exact Hk |]. apply Hv. simpl. tauto.
Defined.

(** ** What makes [generateBundle] fail *)

Lemma output_path_error (E : Env) (outputOptions : OutputOptions) (e : error) :
  output_path E outputOptions = Err e ->
  e = TypeError /\ file outputOptions = None.
Proof.
  unfold output_path.
  destruct (dir outputOptions) as [d |]; [destruct (String.eqb d "") |];
    destruct (file outputOptions); intros H; try discriminate;
    injection H as <-; now split.
Qed.

Lemma Promise_all_error_source {A B : Type} (f : A -> result B) (l : list A)
  (e : error) :
  Promise_all (map f l) = Err e -> exists x, In x l /\ f x = Err e.
Proof.
  induction l as [| x l IH]; simpl; [discriminate |].
  destruct (f x) as [v | e'] eqn:Hx.
  - destruct (Promise_all (map f l)) as [r | e'']; [discriminate |].
    intros H. injection H as ->.
    destruct (IH eq_refl) as [y [Hy He]]. exists y. tauto.
  - intros H. injection H as ->. exists x. tauto.
Qed.

Lemma getCompressedSize_error (E : Env) (o : Options.t) (src : buffer)
  (e : error) :
  getCompressedSize E o (Some src) = Err e ->
  Options.compression o <> none
  /\ ((e = BrotliNotSupported
       /\ Options.compression o = brotli /\ zlib_brotliCompress E = None)
      \/ e = ZlibError).
Proof.
  unfold getCompressedSize, zlib_size.
  destruct (Options.compression o); [discriminate | |].
  - destruct (zlib_gzip E _ _); [discriminate |].
    intros H. injection H as <-. split; [discriminate | now right].
  - destruct (zlib_brotliCompress E) as [br |].
    + destruct (br _ _); [discriminate |].
      intros H. injection H as <-. split; [discriminate | now right].
    + intros H. injection H as <-. split; [discriminate |]. left.
      now repeat split.
Qed.

Lemma getSizes_error (E : Env) (o : Options.t) (cwd : string) (s : State)
  (e : error) :
  fst (getSizes E o cwd s) = Err e ->
  exists file src,
    readFile E cwd file = Some src
    /\ getCompressedSize E o (Some src) = Err e.
Proof.
  rewrite getSizes_total. cbn [fst]. cbv zeta.
  destruct (Promise_all _) as [sizes | e'] eqn:Hp; [discriminate |].
  simpl. intros H. injection H as ->.
  apply Promise_all_error_source in Hp. destruct Hp as [x [_ Hx]].
  unfold measure_file in Hx.
  destruct (readFile E cwd x) as [src |] eqn:Hread; [| discriminate].
  destruct (getCompressedSize E o (Some src)) as [n | e'] eqn:Hn;
    [discriminate |].
  simpl in Hx. injection Hx as ->. now exists x, src.
Qed.

Lemma load_total (E : Env) (o : Options.t) (outputPath : string) (s : State) :
  snd (load E o outputPath s) = s
  /\ (forall e, fst (load E o outputPath s) = Err e ->
                fst (getSizes E o outputPath s) = Err e
                /\ fst (readFromDisk o s) = Ok []).
Proof.
  unfold load, bind. rewrite readFromDisk_total. cbn [fst].
  destruct (if Options.writeFile o then _ else _) as [| first rest].
  - rewrite getSizes_total. split; [reflexivity |]. intros e H.
    split; [exact H | reflexivity].
  - split; [reflexivity | discriminate].
Qed.

(** X5.  For a history file that is absent, unparseable or an array of
    snapshots, the hook [generateBundle] rejects in two cases only.  Either
    the output options give neither a directory nor a file, and the error is
    a [TypeError] raised before anything is done; or no stored snapshot was
    found to load and the scan of the output directory fails on a file it
    could read, because brotli is missing or because zlib rejects the level.
    With output options that name a path it resolves whenever the mode is
    [none] or a stored snapshot is loaded: what fails in [outputSizes] can
    no longer reject it. *)
Theorem generateBundle_rejections (E : Env) (o : Options.t)
  (outputOptions : OutputOptions) (bundle : OutputBundle) (s : State) :
  (forall e, fst (generateBundle E o outputOptions bundle s) = Err e ->
     (e = TypeError /\ output_path E outputOptions = Err TypeError
      /\ snd (generateBundle E o outputOptions bundle s) = s)
     \/ (fst (readFromDisk o s) = Ok []
         /\ Options.compression o <> none
         /\ ((e = BrotliNotSupported
              /\ Options.compression o = brotli
              /\ zlib_brotliCompress E = None)
             \/ e = ZlibError)
         /\ exists _path file src,
              output_path E outputOptions = Ok _path
              /\ readFile E _path file = Some src
              /\ getCompressedSize E o (Some src) = Err e))
  /\ (forall _path,
        output_path E outputOptions = Ok _path ->
        Options.compression o = none
        \/ (Options.writeFile o = true
            /\ exists first rest, history s = Stored (first :: rest)) ->
        resolved (fst (generateBundle E o outputOptions bundle s)) = true).
Proof.
  split.
  - intros e He.
    destruct (output_path E outputOptions) as [_path | e0] eqn:Hpath.
    + right.
      rewrite (generateBundle_result E o outputOptions bundle s _path Hpath)
        in He.
      cbv zeta in He. set (s1 := mkState _ _ _ _ _) in He.
      destruct (fst (load E o _path s1)) as [sizes | e'] eqn:Hload;
        [discriminate |].
      cbn [fst] in He. injection He as ->.
      destruct (load_total E o _path s1) as [_ Herr].
      destruct (Herr e Hload) as [Hscan Hread].
      destruct (getSizes_error E o _path s1 e Hscan) as [file [src [Hf Hm]]].
      destruct (getCompressedSize_error E o src e Hm) as [Hmode Hkind].
      split.
      { rewrite readFromDisk_total in Hread |- *. exact Hread. }
      split; [exact Hmode |]. split; [exact Hkind |].
      now exists _path, file, src.
    + left. destruct (output_path_error E outputOptions e0 Hpath) as [-> _].
      unfold generateBundle, bind, lift in He |- *. rewrite Hpath in He |- *.
      cbn [fst snd] in He |- *. injection He as <-. now repeat split.
  - intros _path Hpath Hmode.
    rewrite (generateBundle_result E o outputOptions bundle s _path Hpath).
    cbv zeta. set (s1 := mkState _ _ _ _ _).
    destruct (fst (load E o _path s1)) as [sizes | e] eqn:Hload;
      [reflexivity |].
    exfalso.
    destruct (load_total E o _path s1) as [_ Herr].
    destruct (Herr e Hload) as [Hscan Hread].
    destruct Hmode as [Hnone | [Hon [first [rest Hstored]]]].
    + destruct (getSizes_error E o _path s1 e Hscan) as [file [src [_ Hm]]].
      destruct (getCompressedSize_error E o src e Hm) as [Hmode _].
      contradiction.
    + rewrite readFromDisk_total, Hon in Hread. subst s1.
      cbn [history fst] in Hread. rewrite Hstored in Hread.
      injection Hread as Hread.
      assert (sort_desc (first :: rest) = []) as Hempty by exact Hread.
      pose proof (sort_desc_perm (first :: rest)) as Hp.
      rewrite Hempty in Hp. apply Permutation_nil in Hp. discriminate.
Qed.

Lemma generateBundle_rejections_witness :
  fst (generateBundle sample_env Options.default (mkOutputOptions None None)
         sample_bundle sample_state) = Err TypeError
  /\ resolved (fst (generateBundle sample_env Options.default
                      (mkOutputOptions (Some "dist") None) sample_bundle
                      sample_state)) = true.
Proof.
  destruct (generateBundle_rejections sample_env Options.default
              (mkOutputOptions (Some "dist") None) sample_bundle sample_state)
    as [_ Hok].
  split; [reflexivity |].
  apply (Hok "dist" eq_refl). right. split; [reflexivity |].
  eexists. eexists. reflexivity.
Defined.

(** X6.  A selected artifact without [code] (an asset) is measured from
    [undefined].  In mode [none] this throws: the measurement of the whole
    build fails with a [TypeError], nothing is compared, saved or reported
    for any file, and the call that [generateBundle] left running only logs
    the error.  With [gzip], zlib takes [undefined] for an empty input: the
    artifact gets the size of the compression of nothing. *)
Theorem artifact_without_code (E : Env) (o : Options.t)
  (assets : OutputBundle) (s : State) (name : string) (f : OutputFile)
  (Hget : bundle_get assets name = Some f)
  (Hcode : code f = None) :
  (Options.compression o = none ->
   In name (filterFiles E o (pattern s) (map fst assets)) ->
   outputSizes E o assets s = (Err TypeError, s)
   /\ forall sizesBefore,
        detached_outputSizes E o assets sizesBefore s
        = (Ok tt,
           mkState (history s) (trace s ++ [ConsoleError TypeError])
             (pattern s) (initialSizes s) (isSingleChunk s)))
  /\ (Options.compression o = gzip ->
      measure_asset E o assets name
      = map_result Js.num
          (zlib_size (zlib_gzip E (Options.compressionLevel o) []))).
Proof.
  split.
  - intros Hmode Hsel.
    assert (forall sizesBefore,
               outputSizes_rest E o assets sizesBefore s = (Err TypeError, s))
      as Hrest.
    { intros sizesBefore. unfold outputSizes_rest.
      unfold bind at 1, get_state. unfold bind at 1, lift.
      rewrite (Promise_all_err (measure_asset E o assets) _ TypeError);
        [reflexivity | |].
      - intros x _. unfold measure_asset.
        destruct (bundle_get assets x) as [g |]; [| now left].
        unfold getCompressedSize. rewrite Hmode.
        destruct (code g) as [src |]; [right | now left].
        now exists (Js.num (byteLength src)).
      - exists name. split; [assumption |]. unfold measure_asset.
        rewrite Hget, Hcode. unfold getCompressedSize. now rewrite Hmode. }
    split.
    + unfold outputSizes. unfold bind at 1, get_state. apply Hrest.
    + intros sizesBefore. unfold detached_outputSizes, catch.
      now rewrite Hrest.
  - intros Hmode. unfold measure_asset. rewrite Hget, Hcode.
    unfold getCompressedSize. now rewrite Hmode.
Qed.

Lemma artifact_without_code_witness :
  outputSizes sample_env options_none bundle_with_asset
    (initial options_none Absent)
  = (Err TypeError, initial options_none Absent)
  /\ measure_asset sample_env Options.default bundle_with_asset "style.css"
     = Ok (Js.num 0).
Proof.
  destruct (artifact_without_code sample_env options_none bundle_with_asset
              (initial options_none Absent) "style.css"
              (mkOutputFile asset "style.css" None) eq_refl eq_refl)
    as [Hnone _].
  destruct (artifact_without_code sample_env Options.default bundle_with_asset
              (initial options_none Absent) "style.css"
              (mkOutputFile asset "style.css" None) eq_refl eq_refl)
    as [_ Hgzip].
  split.
  - apply (Hnone eq_refl). simpl. tauto.
  - rewrite (Hgzip eq_refl). reflexivity.
Defined.

(** X7.  When there is no snapshot to load (persistence is off, the
    history file is absent or cannot be parsed, or it holds an empty array)
    [load] is the scan of the output directory; reading the history is never
    an error and never changes anything. *)
Theorem load_scans_without_history (E : Env) (o : Options.t)
  (outputPath : string) (s : State)
  (Hnone : Options.writeFile o = false
           \/ history s = Absent
           \/ history s = Unparseable
           \/ history s = Stored []) :
  readFromDisk o s = (Ok [], s)
  /\ load E o outputPath s = getSizes E o outputPath s
  /\ snd (load E o outputPath s) = s.
Proof.
  assert (readFromDisk o s = (Ok [], s)) as Hread.
  { rewrite readFromDisk_total.
    destruct Hnone as [-> | [-> | [-> | ->]]]; try reflexivity;
      now destruct (Options.writeFile o). }
  split; [exact Hread |]. split.
  - unfold load, bind. now rewrite Hread.
  - apply load_total.
Qed.

Lemma load_scans_without_history_witness :
  load sample_env options_none "dist" (initial options_none Unparseable)
  = (Ok [("a.js", Js.num 2); ("b.js", Js.num 3)],
     initial options_none Unparseable).
Proof.
  destruct (load_scans_without_history sample_env options_none "dist"
              (initial options_none Unparseable)
              (or_intror (or_intror (or_introl eq_refl))))
    as [_ [Hload _]].
  rewrite Hload. reflexivity.
Defined.

(** ** Builds that change nothing *)

Lemma reconcile_in (before after : Js.object) (d : FileDelta) :
  In d (reconcile before after) ->
  In (filename d) (unique_filenames before after)
  /\ previous d = Js.or_zero (Js.get before (filename d))
  /\ size d = Js.or_zero (Js.get after (filename d))
  /\ diff d = (size d - previous d)%Z.
Proof.
  rewrite reconcile_map. intros H. apply in_map_iff in H.
  destruct H as [k [<- Hk]]. cbn. now repeat split.
Qed.

(** X8.  When every file has the same size before and after (an absent
    file counting as 0), all the records of the comparison have [diff = 0],
    and [save] does nothing to the history file: apart from the call of the
    [save] callback, the state is as before.  This holds in particular when
    a map is compared with itself. *)
Theorem unchanged_build_is_not_saved (E : Env) (o : Options.t)
  (before after : Js.object) (s : State)
  (Hsame : forall k, In k (Js.keys before ++ Js.keys after) ->
                     Js.or_zero (Js.get after k) = Js.or_zero (Js.get before k)) :
  Forall (fun d => diff d = 0%Z) (reconcile before after)
  /\ writeToDisk o
       (stats_of (now E) (Options.compression o) (Options.compressionLevel o)
          (items_of before after)) s = (Ok tt, s)
  /\ history (snd (save E o (items_of before after) s)) = history s
  /\ writes (trace (snd (save E o (items_of before after) s)))
     = writes (trace s).
Proof.
  assert (Forall (fun d => diff d = 0%Z) (reconcile before after)) as Hzero.
  { apply Forall_forall. intros d Hd.
    destruct (reconcile_in before after d Hd) as [Hin [Hp [Hs Hdiff]]].
    rewrite Hdiff, Hp, Hs.
    destruct (unique_first_occurrences
                (Js.keys before ++ Js.keys after)) as [_ Hmem].
    apply Hmem in Hin. rewrite (Hsame _ Hin). lia. }
  assert (forall s0,
             writeToDisk o
               (stats_of (now E) (Options.compression o)
                  (Options.compressionLevel o) (items_of before after)) s0
             = (Ok tt, s0)) as Hw.
  { intros s0. apply writeToDisk_unchanged. exact Hzero. }
  split; [exact Hzero |]. split; [apply Hw |].
  unfold save, bind. destruct (Options.save o); cbn [emit ret];
    rewrite Hw; cbn [snd history trace]; split; try reflexivity.
  unfold writes. rewrite filter_app. simpl. apply app_nil_r.
Qed.

Lemma unchanged_build_is_not_saved_witness :
  Forall (fun d => diff d = 0%Z) (reconcile sample_after sample_after)
  /\ history (snd (save sample_env Options.default
                     (items_of sample_after sample_after) sample_state))
     = Stored sample_history.
Proof.
  destruct (unchanged_build_is_not_saved sample_env Options.default
              sample_after sample_after sample_state (fun k _ => eq_refl))
    as [Hzero [_ [Hh _]]].
  split; [exact Hzero | exact Hh].
Defined.

(** ** From one build to the next *)

Lemma toFileMap_get_last (pre post : list FileDelta) (d : FileDelta) :
  size d <> 0%Z ->
  (forall d', In d' post -> filename d' = filename d -> size d' = 0%Z) ->
  Js.get (utils.toFileMap (pre ++ d :: post)) (filename d) = Js.num (size d).
Proof.
  intros Hnz Hpost. unfold utils.toFileMap.
  rewrite fold_left_app. simpl.
  rewrite fold_toFileMap_frame by assumption.
  unfold utils.toFileMap_step. apply Z.eqb_neq in Hnz. rewrite Hnz. simpl.
  apply get_set_same.
Qed.

Lemma toFileMap_get_absent (l : list FileDelta) (k : string) :
  (forall d, In d l -> filename d = k -> size d = 0%Z) ->
  Js.get (utils.toFileMap l) k = Js.undefined.
Proof.
  intros H. unfold utils.toFileMap. now rewrite fold_toFileMap_frame.
Qed.

(** X9.  The records of a build, read back by [toFileMap] as the baseline
    of the next build, give every file its current size: the map has the
    size of each file whose current size is not 0 and no entry for the
    others, so that in the next comparison the previous size of any name is
    its size after this build. *)
Theorem next_baseline_is_current_sizes (before after : Js.object) (k : string) :
  let baseline := utils.toFileMap (reconcile before after) in
  Js.get baseline k =
    (if (Js.or_zero (Js.get after k) =? 0)%Z then Js.undefined
     else Js.num (Js.or_zero (Js.get after k)))
  /\ Js.or_zero (Js.get baseline k) = Js.or_zero (Js.get after k).
Proof.
  intros baseline.
  assert (Js.get baseline k =
          if (Js.or_zero (Js.get after k) =? 0)%Z then Js.undefined
          else Js.num (Js.or_zero (Js.get after k))) as Hget.
  { subst baseline.
    destruct (Z.eqb_spec (Js.or_zero (Js.get after k)) 0) as [Hz | Hnz].
    - apply toFileMap_get_absent. intros d Hd <-.
      destruct (reconcile_in before after d Hd) as [_ [_ [Hs _]]]. congruence.
    - destruct (in_dec string_dec k (unique_filenames before after))
        as [Hin | Hout].
      + destruct (in_split _ _ Hin) as [pre [post Hsplit]].
        destruct (unique_first_occurrences (Js.keys before ++ Js.keys after))
          as [Hnd _].
        fold (unique_filenames before after) in Hnd.
        rewrite Hsplit in Hnd. apply NoDup_remove_2 in Hnd.
        rewrite reconcile_map, Hsplit, map_app. cbn [map].
        set (record := fun k0 : string =>
                         mkFileDelta k0 (Js.or_zero (Js.get before k0))
                           (Js.or_zero (Js.get after k0))
                           (Js.or_zero (Js.get after k0)
                            - Js.or_zero (Js.get before k0))%Z).
        apply (toFileMap_get_last (map record pre) (map record post)
                 (record k) Hnz).
        intros d' Hd' Hname. apply in_map_iff in Hd'.
        destruct Hd' as [k' [<- Hk']]. cbn in Hname. subst k'.
        exfalso. apply Hnd, in_or_app. now right.
      + exfalso. apply Hnz.
        assert (~ In k (Js.keys after)) as Hk.
        { intros Hk. apply Hout.
          pose proof (filter_dedupe_general
                        (Js.keys before ++ Js.keys after) [] []) as H.
          cbv zeta in H. simpl in H. rewrite app_nil_r in H.
          destruct H as [_ H]. apply H. split; [| tauto].
          apply in_or_app. now right. }
        now rewrite (get_absent _ _ Hk). }
  split; [exact Hget |]. rewrite Hget.
  destruct (Z.eqb_spec (Js.or_zero (Js.get after k)) 0) as [Hz | Hnz].
  - now rewrite Hz.
  - apply or_zero_num.
Qed.

Lemma insert_desc_front (a : Snapshot) (l : list Snapshot) :
  (forall x, In x l -> (timestamp x <= timestamp a)%Z) ->
  insert_desc a l = a :: l.
Proof.
  destruct l as [| b l]; [reflexivity |]. intros H. simpl.
  destruct (Z.gtb_spec (timestamp b) (timestamp a)) as [Hgt | Hle];
    [| reflexivity].
  specialize (H b (or_introl eq_refl)). lia.
Qed.

(** X10.  A snapshot that [writeToDisk] has written is the one the next
    [load] returns, as long as its timestamp is not smaller than those
    already stored: the baseline of the next build is then the size map of
    its files.  (With a stored snapshot of greater timestamp, that one
    would be sorted in front.) *)
Theorem written_snapshot_is_loaded_next (E : Env) (o : Options.t)
  (stats : Snapshot) (s : State) (outputPath : string)
  (Hchange : Exists (fun d => diff d <> 0%Z) (files stats))
  (Hwrite : Options.writeFile o = true)
  (Hclock : forall data x, history s = Stored data -> In x data ->
                           (timestamp x <= timestamp stats)%Z) :
  let s' := snd (writeToDisk o stats s) in
  readFromDisk o s'
    = (Ok (stats :: match history s with
                    | Stored data => sort_desc data
                    | _ => []
                    end), s')
  /\ load E o outputPath s' = (Ok (utils.toFileMap (files stats)), s').
Proof.
  intros s'. subst s'. rewrite (writeToDisk_writes o stats s Hchange Hwrite).
  cbn [snd]. set (existing := match history s with
                              | Stored data => sort_desc data
                              | _ => []
                              end).
  set (s' := mkState _ _ _ _ _).
  assert (readFromDisk o s' = (Ok (stats :: existing), s')) as Hread.
  { rewrite readFromDisk_total, Hwrite. subst s'. cbn [history].
    cbn [sort_desc fold_right]. fold (sort_desc existing).
    assert (newest_first existing) as Hsorted.
    { subst existing. destruct (history s);
        [constructor | constructor | apply sort_desc_sorted]. }
    rewrite (sort_desc_sorted_id existing Hsorted).
    rewrite insert_desc_front; [reflexivity |].
    intros x Hx. subst existing.
    destruct (history s) as [| | data] eqn:Hh; try contradiction.
    apply (Hclock data x eq_refl).
    apply (Permutation_in _ (sort_desc_perm data) Hx). }
  split; [exact Hread |]. unfold load, bind. rewrite Hread. reflexivity.
Qed.

Lemma written_snapshot_is_loaded_next_witness :
  load sample_env Options.default "dist"
    (snd (writeToDisk Options.default changed_stats sample_state))
  = (Ok [("a.js", Js.num 1300)],
     snd (writeToDisk Options.default changed_stats sample_state)).
Proof.
  assert (Exists (fun d => diff d <> 0%Z) (files changed_stats)) as Hc.
  { apply Exists_cons_hd. simpl. discriminate. }
  assert (forall data x, history sample_state = Stored data -> In x data ->
                         (timestamp x <= timestamp changed_stats)%Z) as Hclock.
  { intros data x Hd Hx. injection Hd as <-. simpl in Hx.
    destruct Hx as [<- | [<- | [<- | []]]]; simpl; lia. }
  destruct (written_snapshot_is_loaded_next sample_env Options.default
              changed_stats sample_state "dist" Hc eq_refl Hclock)
    as [_ Hload].
  exact Hload.
Defined.

(** ** The history over a build *)

Lemma writeToDisk_cases (o : Options.t) (stats : Snapshot) (s : State) :
  writeToDisk o stats s = (Ok tt, s)
  \/ (Options.writeFile o = true
      /\ Exists (fun d => diff d <> 0%Z) (files stats)
      /\ writeToDisk o stats s =
         (Ok tt,
          mkState
            (Stored (stats :: match history s with
                              | Stored data => sort_desc data
                              | _ => []
                              end))
            (trace s ++
             [EnsureFile;
              WriteJSON (stats :: match history s with
                                  | Stored data => sort_desc data
                                  | _ => []
                                  end)])
            (pattern s) (initialSizes s) (isSingleChunk s))).
Proof.
  destruct (existsb (fun file => negb (diff file =? 0)%Z) (files stats)) eqn:Hd.
  - destruct (Options.writeFile o) eqn:Hw.
    + right. assert (Exists (fun d => diff d <> 0%Z) (files stats)) as Hex.
      { apply existsb_exists in Hd. destruct Hd as [d [Hin Hd]].
        apply Exists_exists. exists d. split; [assumption |].
        apply negb_true_iff in Hd. now apply Z.eqb_neq. }
      split; [reflexivity |]. split; [exact Hex |].
      now apply writeToDisk_writes.
    + left. now apply writeToDisk_disabled.
  - left. unfold writeToDisk. now rewrite Hd.
Qed.

Lemma outputSizes_rest_history (E : Env) (o : Options.t)
  (assets : OutputBundle) (sizesBefore : Js.object) (s : State) :
  history (snd (outputSizes_rest E o assets sizesBefore s)) = history s
  \/ exists stats,
       timestamp stats = now E
       /\ Exists (fun d => diff d <> 0%Z) (files stats)
       /\ Options.writeFile o = true
       /\ history (snd (outputSizes_rest E o assets sizesBefore s))
          = Stored (stats :: match history s with
                             | Stored data => sort_desc data
                             | _ => []
                             end).
Proof.
  remember (outputSizes_rest E o assets sizesBefore s) as r eqn:Hr.
  unfold outputSizes_rest in Hr. unfold bind at 1, get_state in Hr.
  unfold bind at 1, lift in Hr.
  destruct (Promise_all _) as [sizes | e]; [| subst r; now left].
  set (items := items_of _ _) in Hr.
  set (stats := stats_of (now E) (Options.compression o)
                  (Options.compressionLevel o) items).
  unfold bind at 1 in Hr. unfold save in Hr. fold stats in Hr.
  unfold bind at 1 in Hr.
  set (s1 := snd ((if Options.save o then emit (SaveHook stats) else ret tt) s)).
  assert ((if Options.save o then emit (SaveHook stats) else ret tt) s
          = (Ok tt, s1) /\ history s1 = history s) as [Hs1 Hh1].
  { subst s1. destruct (Options.save o); split; reflexivity. }
  rewrite Hs1 in Hr.
  destruct (writeToDisk_cases o stats s1) as [Hw | [Hon [Hex Hw]]];
    rewrite Hw in Hr; subst r.
  - left. destruct items; cbn [emit ret snd history]; exact Hh1.
  - right. exists stats. split; [reflexivity |]. split; [exact Hex |].
    split; [exact Hon |]. rewrite Hh1. destruct items; reflexivity.
Qed.

Lemma detached_history (E : Env) (o : Options.t) (bundle : OutputBundle)
  (sizesBefore : Js.object) (s : State) :
  history (snd (detached_outputSizes E o bundle sizesBefore s)) = history s
  \/ exists stats,
       timestamp stats = now E
       /\ Exists (fun d => diff d <> 0%Z) (files stats)
       /\ Options.writeFile o = true
       /\ history (snd (detached_outputSizes E o bundle sizesBefore s))
          = Stored (stats :: match history s with
                             | Stored data => sort_desc data
                             | _ => []
                             end).
Proof.
  pose proof (outputSizes_rest_history E o bundle sizesBefore s) as H.
  unfold detached_outputSizes, catch.
  destruct (outputSizes_rest E o bundle sizesBefore s) as [[[] | e] s1];
    cbn [snd emit history] in H |- *; exact H.
Qed.

Lemma generateBundle_state (E : Env) (o : Options.t)
  (outputOptions : OutputOptions) (bundle : OutputBundle) (s : State) :
  history (snd (generateBundle E o outputOptions bundle s)) = history s
  /\ trace (snd (generateBundle E o outputOptions bundle s)) = trace s.
Proof.
  destruct (output_path E outputOptions) as [_path | e] eqn:Hpath.
  - rewrite (generateBundle_result E o outputOptions bundle s _path Hpath).
    cbv zeta. destruct (fst (load E o _path _)); split; reflexivity.
  - unfold generateBundle, bind, lift. rewrite Hpath. split; reflexivity.
Qed.

(** X11.  The hook [generateBundle] never touches the history file or the
    console.  The call of [outputSizes] that it leaves running, whenever it
    runs and with no other call interleaved, either leaves the history file
    as it finds it or replaces it by one new snapshot (stamped with the time
    of the build, holding a nonzero [diff], writing being on) followed by
    the snapshots it finds stored, sorted newest first; an absent or
    unparseable file is replaced by the new snapshot alone.  The same holds
    of a whole build that nothing interleaves with. *)
Theorem build_adds_at_most_one_snapshot (E : Env) (o : Options.t)
  (outputOptions : OutputOptions) (bundle : OutputBundle) (s : State) :
  let added (before after : FileContent) : Prop :=
    after = before
    \/ exists stats,
         timestamp stats = now E
         /\ Exists (fun d => diff d <> 0%Z) (files stats)
         /\ Options.writeFile o = true
         /\ match before with
            | Stored data =>
                after = Stored (stats :: sort_desc data)
                /\ Permutation (stats :: sort_desc data) (stats :: data)
                /\ newest_first (sort_desc data)
            | Absent | Unparseable => after = Stored [stats]
            end in
  (history (snd (generateBundle E o outputOptions bundle s)) = history s
   /\ trace (snd (generateBundle E o outputOptions bundle s)) = trace s)
  /\ (forall task s1,
        generateBundle E o outputOptions bundle s = (Ok task, s1) ->
        forall s2, added (history s2) (history (snd (task s2))))
  /\ added (history s) (history (snd (build E o outputOptions bundle s))).
Proof.
  intros added.
  assert (forall sizesBefore s2,
             added (history s2)
               (history (snd (detached_outputSizes E o bundle sizesBefore s2))))
    as Htask.
  { intros sizesBefore s2.
    destruct (detached_history E o bundle sizesBefore s2)
      as [Hsame | [stats [Hts [Hex [Hon Hnew]]]]]; [now left |].
    right. exists stats. split; [exact Hts |]. split; [exact Hex |].
    split; [exact Hon |].
    destruct (history s2) as [| | data]; [exact Hnew | exact Hnew |].
    split; [exact Hnew |]. split.
    - apply perm_skip, sort_desc_perm.
    - apply sort_desc_sorted. }
  split; [apply generateBundle_state |]. split.
  - intros task s1 Hrun s2.
    rewrite (generateBundle_task E o outputOptions bundle s s1 task Hrun).
    apply Htask.
  - unfold build, bind.
    pose proof (generateBundle_state E o outputOptions bundle s) as [Hh _].
    destruct (generateBundle E o outputOptions bundle s) as [[task | e] s1]
      eqn:Hrun; cbn [snd] in Hh |- *.
    + rewrite (generateBundle_task E o outputOptions bundle s s1 task Hrun).
      rewrite <- Hh. apply Htask.
    + left. exact Hh.
Qed.

(** ** The pattern over several builds *)

Lemma build_result (E : Env) (o : Options.t)
  (outputOptions : OutputOptions) (bundle : OutputBundle) (s : State)
  (_path : string) :
  output_path E outputOptions = Ok _path ->
  let s1 := mkState (history s) (trace s)
              (match chunks_of bundle with
               | [only] => fileName only
               | _ => pattern s
               end)
              (initialSizes s) (Nat.eqb (List.length (chunks_of bundle)) 1) in
  build E o outputOptions bundle s =
  match fst (load E o _path s1) with
  | Ok sizes =>
      detached_outputSizes E o bundle sizes
        (mkState (history s1) (trace s1) (pattern s1) sizes (isSingleChunk s1))
  | Err e => (Err e, s1)
  end.
Proof.
  intros Hpath s1. unfold build, bind.
  rewrite (generateBundle_result E o outputOptions bundle s _path Hpath).
  cbv zeta. fold s1. destruct (fst (load E o _path s1)); reflexivity.
Qed.

Lemma build_closure (E : Env) (o : Options.t)
  (outputOptions : OutputOptions) (bundle : OutputBundle) (s : State)
  (_path : string) :
  output_path E outputOptions = Ok _path ->
  let s' := snd (build E o outputOptions bundle s) in
  pattern s' =
    match chunks_of bundle with
    | [only] => fileName only
    | _ => pattern s
    end
  /\ isSingleChunk s' = Nat.eqb (List.length (chunks_of bundle)) 1.
Proof.
  intros Hpath. cbv zeta.
  rewrite (build_result E o outputOptions bundle s _path Hpath). cbv zeta.
  destruct (fst (load E o _path _)) as [sizes | e];
    [| split; reflexivity].
  apply (keeps_closure_detached E o bundle sizes).
Qed.

(** X12.  The pattern is a variable of the plugin instance that only a
    build with exactly one chunk assigns.  After such a build a later build
    with another number of chunks still selects with the file name of that
    chunk: the configured pattern is not restored.  This holds of the state
    the hook leaves and of the state after the call of [outputSizes] that it
    left running. *)
Theorem pattern_override_persists (E1 E2 : Env) (o : Options.t)
  (out1 out2 : OutputOptions) (bundle1 bundle2 : OutputBundle) (s : State)
  (only : OutputFile) (path1 path2 : string)
  (Hpath1 : output_path E1 out1 = Ok path1)
  (Hpath2 : output_path E2 out2 = Ok path2)
  (Hone : chunks_of bundle1 = [only])
  (Hmore : List.length (chunks_of bundle2) <> 1%nat) :
  let s1 := snd (generateBundle E1 o out1 bundle1 s) in
  let s2 := snd (generateBundle E2 o out2 bundle2 s1) in
  pattern s1 = fileName only
  /\ isSingleChunk s1 = true
  /\ pattern s2 = fileName only
  /\ isSingleChunk s2 = false
  /\ (let t1 := snd (build E1 o out1 bundle1 s) in
      let t2 := snd (build E2 o out2 bundle2 t1) in
      pattern t1 = fileName only
      /\ isSingleChunk t1 = true
      /\ pattern t2 = fileName only
      /\ isSingleChunk t2 = false).
Proof.
  intros s1 s2.
  destruct (generateBundle_closure E1 o out1 bundle1 s path1 Hpath1)
    as [Hp1 Hc1].
  destruct (generateBundle_closure E2 o out2 bundle2 s1 path2 Hpath2)
    as [Hp2 Hc2].
  fold s1 in Hp1, Hc1. fold s2 in Hp2, Hc2.
  rewrite Hone in Hp1, Hc1. simpl in Hc1.
  split; [exact Hp1 |]. split; [exact Hc1 |]. split; [| split].
  - rewrite Hp2. destruct (chunks_of bundle2) as [| c [| c' rest]];
      [exact Hp1 | simpl in Hmore; congruence | exact Hp1].
  - rewrite Hc2. now apply Nat.eqb_neq.
  - intros t1 t2.
    destruct (build_closure E1 o out1 bundle1 s path1 Hpath1) as [Hq1 Hd1].
    destruct (build_closure E2 o out2 bundle2 t1 path2 Hpath2) as [Hq2 Hd2].
    fold t1 in Hq1, Hd1. fold t2 in Hq2, Hd2.
    rewrite Hone in Hq1, Hd1. simpl in Hd1.
    split; [exact Hq1 |]. split; [exact Hd1 |]. split.
    + rewrite Hq2. destruct (chunks_of bundle2) as [| c [| c' rest]];
        [exact Hq1 | simpl in Hmore; congruence | exact Hq1].
    + rewrite Hd2. now apply Nat.eqb_neq.
Qed.

Lemma pattern_override_persists_witness :
  pattern later_state = "bundle.a1b2c3.js"
  /\ isSingleChunk later_state = false.
Proof.
  assert (List.length (chunks_of sample_bundle) <> 1%nat) as Hmore
      by (simpl; discriminate).
  destruct (pattern_override_persists sample_env sample_env Options.default
              (mkOutputOptions (Some "dist") None)
              (mkOutputOptions (Some "dist") None)
              [("bundle.a1b2c3.js", hashed_chunk)] sample_bundle sample_state
              hashed_chunk "dist" "dist" eq_refl eq_refl eq_refl Hmore)
    as [_ [_ [Hp [Hc _]]]].
  split; [exact Hp | exact Hc].
Defined.

(** ** What is shown and what is saved *)

(** X13.  The report shows a change only when the size moved by more than
    one byte, while [writeToDisk] saves as soon as a [diff] is not 0.  So a
    build in which no file moved by more than one byte, and some file moved
    by one, reports no change for every file and is saved all the same. *)
Theorem one_byte_change_is_saved_not_shown (E : Env) (o : Options.t)
  (before after : Js.object) (s : State)
  (Hwrite : Options.writeFile o = true)
  (Hsmall : forall k, (Z.abs (Js.or_zero (Js.get after k)
                              - Js.or_zero (Js.get before k)) <= 1)%Z)
  (Hmoved : exists k, In k (Js.keys before ++ Js.keys after)
                      /\ Js.or_zero (Js.get after k)
                         <> Js.or_zero (Js.get before k)) :
  Forall (fun it => shows_change (delta it) = false) (items_of before after)
  /\ exists existing,
       history (snd (save E o (items_of before after) s))
       = Stored (stats_of (now E) (Options.compression o)
                   (Options.compressionLevel o) (items_of before after)
                 :: existing).
Proof.
  split.
  - apply Forall_forall. intros it Hit. unfold items_of in Hit.
    apply in_map_iff in Hit. destruct Hit as [k [<- _]]. cbn [delta item_of].
    unfold shows_change. specialize (Hsmall k).
    destruct (Z.gtb_spec
                (Z.abs (Js.or_zero (Js.get after k)
                        - Js.or_zero (Js.get before k))) 1); [lia |].
    apply andb_false_r.
  - set (stats := stats_of _ _ _ _).
    assert (Exists (fun d => diff d <> 0%Z) (files stats)) as Hex.
    { destruct Hmoved as [k [Hk Hne]]. apply Exists_exists.
      exists (delta_of_item (item_of before after k)). split.
      - subst stats. unfold stats_of, items_of. cbn [files].
        apply in_map, in_map.
        pose proof (filter_dedupe_general
                      (Js.keys before ++ Js.keys after) [] []) as H.
        cbv zeta in H. simpl in H. rewrite app_nil_r in H.
        destruct H as [_ H]. apply H. tauto.
      - cbn. lia. }
    unfold save. fold stats. unfold bind.
    destruct (Options.save o); cbn [emit ret];
      rewrite (writeToDisk_writes o stats _ Hex Hwrite);
      eexists; reflexivity.
Qed.

Lemma one_byte_change_is_saved_not_shown_witness :
  Forall (fun it => shows_change (delta it) = false)
    (items_of sample_before one_byte_after)
  /\ exists existing,
       history (snd (save sample_env Options.default
                       (items_of sample_before one_byte_after) sample_state))
       = Stored (stats_of (now sample_env) gzip 6
                   (items_of sample_before one_byte_after) :: existing).
Proof.
  apply (one_byte_change_is_saved_not_shown sample_env Options.default
           sample_before one_byte_after sample_state eq_refl).
  - intros k. unfold one_byte_after, sample_before. cbn [Js.get].
    destruct (String.eqb "a.js" k); vm_compute; discriminate.
  - exists "a.js". split; [simpl; tauto | vm_compute; discriminate].
Defined.

(** ** The baseline scan, position by position *)

Lemma toMap_get_nth (names : list string) (values : list Js.value) (i : nat) :
  NoDup names -> (i < List.length names)%nat ->
  Js.get (utils.toMap names values) (nth i names "") =
  nth i values Js.undefined.
Proof.
  intros Hnd Hi.
  destruct (nth_split names "" Hi) as [pre [post [Hsplit Hlen]]].
  unfold utils.toMap. rewrite Hsplit at 1.
  rewrite toMap_from_get_last; [now rewrite Hlen |].
  rewrite Hsplit in Hnd. apply NoDup_remove_2 in Hnd.
  intros H. apply Hnd, in_or_app. now right.
Qed.

(** X15.  The map that [getSizes] returns has every globbed name as a key,
    whether [filterFiles] keeps it or not, and pairs names and sizes by
    position: the [i]-th globbed name carries the measure of the [i]-th
    selected file, and [undefined] when fewer than [i + 1] files are
    selected.  (The names that [glob] returns are distinct.) *)
Theorem getSizes_pairs_by_position (E : Env) (o : Options.t) (cwd : string)
  (s : State) (m : Js.object)
  (Hnodup : NoDup (glob E (pattern s) cwd (Options.exclude o)))
  (Hscan : fst (getSizes E o cwd s) = Ok m) :
  let files := glob E (pattern s) cwd (Options.exclude o) in
  let selected := filterFiles E o (pattern s) files in
  Js.keys m = files
  /\ exists sizes,
       Forall2 (fun f v => measure_file E o cwd f = Ok v) selected sizes
       /\ (forall i, (i < List.length files)%nat ->
             Js.get m (nth i files "") = nth i sizes Js.undefined)
       /\ (forall i, (List.length selected <= i < List.length files)%nat ->
             Js.get m (nth i files "") = Js.undefined).
Proof.
  intros files selected. rewrite getSizes_total in Hscan. cbn [fst] in Hscan.
  fold files in Hscan. fold selected in Hscan.
  destruct (Promise_all (map (measure_file E o cwd) selected))
    as [sizes | e] eqn:Hs; [| discriminate].
  simpl in Hscan. injection Hscan as <-.
  apply Promise_all_ok in Hs. split.
  - destruct (toMap_from_keys files sizes [] 0 (NoDup_nil _)) as [_ [_ Hk]].
    apply Hk. exact Hnodup.
  - exists sizes. split; [exact Hs |]. split.
    + intros i Hi. now apply toMap_get_nth.
    + intros i [Hlo Hhi]. rewrite toMap_get_nth by assumption.
      apply nth_overflow. rewrite <- (Forall2_length Hs). exact Hlo.
Qed.

Lemma getSizes_pairs_by_position_witness :
  Js.keys [("a.js", Js.num 3); ("b.js", Js.undefined)] = ["a.js"; "b.js"]
  /\ exists sizes,
       Forall2 (fun f v => measure_file env_disagree options_none "dist" f
                           = Ok v) ["b.js"] sizes
       /\ Js.get [("a.js", Js.num 3); ("b.js", Js.undefined)] "a.js"
          = nth 0 sizes Js.undefined.
Proof.
  assert (NoDup ["a.js"; "b.js"]) as Hnd.
  { repeat constructor; simpl; intuition discriminate. }
  destruct (getSizes_pairs_by_position env_disagree options_none "dist"
              (initial options_none Absent)
              [("a.js", Js.num 3); ("b.js", Js.undefined)] Hnd eq_refl)
    as [Hk [sizes [Hs [Hget _]]]].
  split; [exact Hk |]. exists sizes. split; [exact Hs |].
  apply (Hget 0%nat). simpl. lia.
Defined.

(** ** The [save] callback *)

(** X16.  When the options carry a [save] callback, [save] hands it the
    snapshot of every build before it touches the file, also when nothing
    changed or when writing is off: the callback is the first thing [save]
    does, and it is followed either by nothing or by the creation of the
    file and the write of the history headed by that snapshot. *)
Theorem save_callback_gets_every_snapshot (E : Env) (o : Options.t)
  (items : list Item) (s : State)
  (Hhook : Options.save o = true) :
  let stats :=
    stats_of (now E) (Options.compression o) (Options.compressionLevel o)
      items in
  exists rest,
    trace (snd (save E o items s)) = trace s ++ SaveHook stats :: rest
    /\ (rest = []
        \/ exists existing,
             rest = [EnsureFile; WriteJSON (stats :: existing)]
             /\ Options.writeFile o = true
             /\ Exists (fun d => diff d <> 0%Z) (files stats)).
Proof.
  intros stats. unfold save. fold stats. rewrite Hhook. unfold bind, emit.
  set (s1 := mkState _ (trace s ++ [SaveHook stats]) _ _ _).
  destruct (writeToDisk_cases o stats s1) as [Hw | [Hon [Hex Hw]]]; rewrite Hw.
  - exists []. split; [reflexivity | now left].
  - eexists. split.
    + cbn [snd trace]. subst s1. cbn [trace]. rewrite <- app_assoc.
      reflexivity.
    + right. eexists. split; [reflexivity |]. now split.
Qed.

Lemma save_callback_gets_every_snapshot_witness :
  exists rest,
    trace (snd (save sample_env options_with_callback
                  (items_of sample_after sample_after) sample_state))
    = trace sample_state
      ++ SaveHook (stats_of (now sample_env) gzip 6
                     (items_of sample_after sample_after)) :: rest.
Proof.
  destruct (save_callback_gets_every_snapshot sample_env options_with_callback
              (items_of sample_after sample_after) sample_state eq_refl)
    as [rest [Htrace _]].
  exists rest. exact Htrace.
Defined.

(** ** Files that leave the build *)

(** X17.  A file of the baseline that the current build no longer has (or
    has with size 0) is still reported: its record has size 0 and a [diff]
    that is the opposite of its previous size.  Read back as the baseline of
    the next build, the records have no entry for it: it is reported once
    and then forgotten. *)
Theorem removed_file_is_reported_once (before after : Js.object) (k : string)
  (Hbefore : In k (Js.keys before))
  (Hgone : Js.or_zero (Js.get after k) = 0%Z) :
  (exists d, In d (reconcile before after)
             /\ filename d = k
             /\ previous d = Js.or_zero (Js.get before k)
             /\ size d = 0%Z
             /\ diff d = (- previous d)%Z)
  /\ ~ In k (Js.keys (utils.toFileMap (reconcile before after))).
Proof.
  split.
  - exists (mkFileDelta k (Js.or_zero (Js.get before k))
              (Js.or_zero (Js.get after k))
              (Js.or_zero (Js.get after k) - Js.or_zero (Js.get before k))).
    split.
    + rewrite reconcile_map. apply in_map_iff. exists k. split; [reflexivity |].
      pose proof (filter_dedupe_general
                    (Js.keys before ++ Js.keys after) [] []) as H.
      cbv zeta in H. simpl in H. rewrite app_nil_r in H.
      destruct H as [_ H]. apply H. split; [| tauto].
      apply in_or_app. now left.
    + cbn. rewrite Hgone. repeat split.
  - intros Hin. unfold utils.toFileMap in Hin.
    apply fold_toFileMap_keys in Hin. destruct Hin as [[] | [d [Hd [Hname Hnz]]]].
    destruct (reconcile_in before after d Hd) as [_ [_ [Hs _]]].
    apply Hnz. rewrite Hs, Hname. exact Hgone.
Qed.

Lemma removed_file_is_reported_once_witness :
  (exists d, In d (reconcile sample_after sample_before)
             /\ filename d = "b.js"
             /\ previous d = 500%Z
             /\ size d = 0%Z
             /\ diff d = (- previous d)%Z)
  /\ ~ In "b.js" (Js.keys (utils.toFileMap
                            (reconcile sample_after sample_before))).
Proof.
  apply (removed_file_is_reported_once sample_after sample_before "b.js").
  - simpl. tauto.
  - reflexivity.
Defined.

(** ** Building twice *)

Lemma baseline_or_zero (before after : Js.object) (k : string) :
  Js.or_zero (Js.get (utils.toFileMap (reconcile before after)) k)
  = Js.or_zero (Js.get after k).
Proof.
  destruct (Z.eqb_spec (Js.or_zero (Js.get after k)) 0) as [Hz | Hnz].
  - rewrite toFileMap_get_absent; [now rewrite Hz |].
    intros d Hd <-.
    destruct (reconcile_in before after d Hd) as [_ [_ [Hs _]]]. congruence.
  - assert (In k (unique_filenames before after)) as Hin.
    { pose proof (filter_dedupe_general
                    (Js.keys before ++ Js.keys after) [] []) as H.
      cbv zeta in H. simpl in H. rewrite app_nil_r in H.
      destruct H as [_ H]. apply H. split; [| tauto].
      apply in_or_app. right.
      destruct (in_dec string_dec k (Js.keys after)) as [Hk | Hk];
        [assumption |].
      exfalso. apply Hnz. now rewrite (get_absent _ _ Hk). }
    destruct (in_split _ _ Hin) as [pre [post Hsplit]].
    destruct (unique_first_occurrences (Js.keys before ++ Js.keys after))
      as [Hnd _].
    fold (unique_filenames before after) in Hnd.
    rewrite Hsplit in Hnd. apply NoDup_remove_2 in Hnd.
    rewrite reconcile_map, Hsplit, map_app. cbn [map].
    set (record := fun k0 : string =>
                     mkFileDelta k0 (Js.or_zero (Js.get before k0))
                       (Js.or_zero (Js.get after k0))
                       (Js.or_zero (Js.get after k0)
                        - Js.or_zero (Js.get before k0))%Z).
    assert (Js.get (utils.toFileMap
                      (map record pre ++ record k :: map record post)) k
            = Js.num (Js.or_zero (Js.get after k))) as Hg.
    { apply (toFileMap_get_last (map record pre) (map record post)
               (record k) Hnz).
      intros d' Hd' Hname. apply in_map_iff in Hd'.
      destruct Hd' as [k' [<- Hk']]. cbn in Hname. subst k'.
      exfalso. apply Hnd, in_or_app. now right. }
    change (Js.or_zero
              (Js.get (utils.toFileMap
                         (map record pre ++ record k :: map record post)) k)
            = Js.or_zero (Js.get after k)).
    rewrite Hg. apply or_zero_num.
Qed.

Lemma save_unchanged (E : Env) (o : Options.t) (before after : Js.object)
  (s : State) :
  (forall k, Js.or_zero (Js.get after k) = Js.or_zero (Js.get before k)) ->
  exists hook,
    save E o (items_of before after) s
    = (Ok tt,
       mkState (history s) (trace s ++ hook) (pattern s) (initialSizes s)
         (isSingleChunk s))
    /\ writes hook = [].
Proof.
  intros Hsame.
  assert (forall s0,
             writeToDisk o
               (stats_of (now E) (Options.compression o)
                  (Options.compressionLevel o) (items_of before after)) s0
             = (Ok tt, s0)) as Hw.
  { intros s0. apply writeToDisk_unchanged. apply Forall_forall. intros d Hd.
    change (In d (reconcile before after)) in Hd.
    destruct (reconcile_in before after d Hd) as [_ [Hp [Hs Hdiff]]].
    rewrite Hdiff, Hp, Hs, Hsame. lia. }
  unfold save, bind. destruct (Options.save o); cbn [emit ret]; rewrite Hw.
  - eexists. split; [reflexivity | reflexivity].
  - exists []. split; [| reflexivity]. rewrite app_nil_r. now destruct s.
Qed.

Lemma outputSizes_rest_unchanged (E : Env) (o : Options.t)
  (assets : OutputBundle) (sizesBefore : Js.object) (s : State)
  (sizes : list Js.value) :
  Promise_all (map (measure_asset E o assets)
                 (filterFiles E o (pattern s) (map fst assets))) = Ok sizes ->
  (forall k,
      Js.or_zero (Js.get (utils.toMap
                            (filterFiles E o (pattern s) (map fst assets))
                            sizes) k)
      = Js.or_zero (Js.get sizesBefore k)) ->
  fst (outputSizes_rest E o assets sizesBefore s) = Ok tt
  /\ history (snd (outputSizes_rest E o assets sizesBefore s)) = history s
  /\ writes (trace (snd (outputSizes_rest E o assets sizesBefore s)))
     = writes (trace s).
Proof.
  intros Hsizes Hsame.
  remember (outputSizes_rest E o assets sizesBefore s) as r eqn:Hr.
  unfold outputSizes_rest in Hr. unfold bind at 1, get_state in Hr.
  unfold bind at 1, lift in Hr. rewrite Hsizes in Hr.
  set (items := items_of _ _) in Hr. unfold bind at 1 in Hr.
  destruct (save_unchanged E o sizesBefore
              (utils.toMap (filterFiles E o (pattern s) (map fst assets)) sizes)
              s Hsame) as [hook [Hsave Hhook]].
  fold items in Hsave. rewrite Hsave in Hr.
  destruct items; subst r; cbn [fst snd ret emit history trace];
    (split; [reflexivity |]); (split; [reflexivity |]);
    unfold writes in *; rewrite ?filter_app, Hhook; simpl;
    now rewrite ?app_nil_r.
Qed.

Lemma outputSizes_rest_written (E : Env) (o : Options.t)
  (assets : OutputBundle) (sizesBefore : Js.object) (s : State) :
  history (snd (outputSizes_rest E o assets sizesBefore s)) <> history s ->
  exists sizes,
    Promise_all (map (measure_asset E o assets)
                   (filterFiles E o (pattern s) (map fst assets))) = Ok sizes
    /\ Options.writeFile o = true
    /\ history (snd (outputSizes_rest E o assets sizesBefore s))
       = Stored
           (stats_of (now E) (Options.compression o)
              (Options.compressionLevel o)
              (items_of sizesBefore
                 (utils.toMap (filterFiles E o (pattern s) (map fst assets))
                    sizes))
            :: match history s with
               | Stored data => sort_desc data
               | _ => []
               end).
Proof.
  remember (outputSizes_rest E o assets sizesBefore s) as r eqn:Hr.
  unfold outputSizes_rest in Hr. unfold bind at 1, get_state in Hr.
  unfold bind at 1, lift in Hr.
  destruct (Promise_all _) as [sizes | e];
    [| subst r; intros H; now contradiction H].
  intros Hneq. exists sizes. split; [reflexivity |].
  set (items := items_of _ _) in *.
  set (stats := stats_of (now E) (Options.compression o)
                  (Options.compressionLevel o) items).
  unfold bind at 1 in Hr. unfold save in Hr. fold stats in Hr.
  unfold bind at 1 in Hr.
  set (s1 := snd ((if Options.save o then emit (SaveHook stats) else ret tt) s)).
  assert ((if Options.save o then emit (SaveHook stats) else ret tt) s
          = (Ok tt, s1) /\ history s1 = history s) as [Hs1 Hh1].
  { subst s1. destruct (Options.save o); split; reflexivity. }
  rewrite Hs1 in Hr.
  destruct (writeToDisk_cases o stats s1) as [Hw | [Hon [_ Hw]]];
    rewrite Hw in Hr; subst r.
  - exfalso. apply Hneq. destruct items; cbn [emit ret snd history]; exact Hh1.
  - split; [exact Hon |]. rewrite Hh1. destruct items; reflexivity.
Qed.

(** X18.  Building the same bundle again after a build that saved a
    snapshot changes nothing, provided the call of [outputSizes] that the
    first build left running has finished before the second build starts:
    the second build loads the snapshot the first one wrote, finds every
    size equal to its baseline, and leaves the history file as the first
    build left it, without any file operation.  (The clock must not be
    behind the timestamps already stored, or an older snapshot would be
    loaded.) *)
Theorem rebuild_after_save_writes_nothing (E : Env) (o : Options.t)
  (outputOptions : OutputOptions) (bundle : OutputBundle) (s : State)
  (Hsaved : history (snd (build E o outputOptions bundle s)) <> history s)
  (Hclock : forall data x, history s = Stored data -> In x data ->
                           (timestamp x <= now E)%Z) :
  let s1 := snd (build E o outputOptions bundle s) in
  let s2 := snd (build E o outputOptions bundle s1) in
  fst (build E o outputOptions bundle s1) = Ok tt
  /\ history s2 = history s1
  /\ writes (trace s2) = writes (trace s1).
Proof.
  intros s1 s2.
  destruct (output_path E outputOptions) as [_path | e] eqn:Hpath.
  2:{ exfalso. apply Hsaved. unfold build, generateBundle, bind, lift.
      rewrite Hpath. reflexivity. }
  set (p := match chunks_of bundle with
            | [only] => fileName only
            | _ => pattern s
            end).
  set (names := filterFiles E o p (map fst bundle)).
  (* the first build *)
  assert (exists sizes0 sizes,
             Promise_all (map (measure_asset E o bundle) names) = Ok sizes
             /\ Options.writeFile o = true
             /\ pattern s1 = p
             /\ history s1
                = Stored
                    (stats_of (now E) (Options.compression o)
                       (Options.compressionLevel o)
                       (items_of sizes0 (utils.toMap names sizes))
                     :: match history s with
                        | Stored data => sort_desc data
                        | _ => []
                        end)) as [sizes0 [sizes [Hsizes [Hon [Hp1 Hh1]]]]].
  { subst s1.
    rewrite (build_result E o outputOptions bundle s _path Hpath)
      in Hsaved |- *.
    cbv zeta in Hsaved |- *. fold p in Hsaved |- *.
    set (sa := mkState _ _ p _ _) in *.
    destruct (fst (load E o _path sa)) as [sizes0 | e];
      [| now contradiction Hsaved].
    set (sb := mkState (history sa) (trace sa) (pattern sa) sizes0
                 (isSingleChunk sa)) in *.
    destruct (keeps_closure_detached E o bundle sizes0 sb) as [Hp _].
    unfold detached_outputSizes, catch in Hsaved, Hp |- *.
    assert (history (snd (outputSizes_rest E o bundle sizes0 sb))
            <> history sb) as Hne.
    { intros Heq. apply Hsaved.
      destruct (outputSizes_rest E o bundle sizes0 sb) as [[[] | e] s5];
        cbn [snd emit history] in Heq |- *; exact Heq. }
    destruct (outputSizes_rest_written E o bundle sizes0 sb Hne)
      as [sizes [Hsizes [Hon Hh]]].
    exists sizes0, sizes. split; [exact Hsizes |]. split; [exact Hon |].
    split; [exact Hp |].
    destruct (outputSizes_rest E o bundle sizes0 sb) as [[[] | e] s5];
      cbn [snd emit history] in Hh |- *; exact Hh. }
  (* the second build *)
  set (stats := stats_of _ _ _ _) in Hh1.
  set (existing := match history s with
                   | Stored data => sort_desc data
                   | _ => []
                   end) in Hh1.
  subst s2.
  rewrite (build_result E o outputOptions bundle s1 _path Hpath).
  cbv zeta.
  assert (match chunks_of bundle with
          | [only] => fileName only
          | _ => pattern s1
          end = p) as Hp2.
  { rewrite Hp1. unfold p.
    destruct (chunks_of bundle) as [| only [| ? ?]]; reflexivity. }
  rewrite Hp2. set (sa := mkState _ _ p _ _).
  assert (load E o _path sa
          = (Ok (utils.toFileMap (files stats)), sa)) as Hload.
  { unfold load, bind. rewrite readFromDisk_total, Hon.
    subst sa. cbn [history]. rewrite Hh1.
    cbn [sort_desc fold_right]. fold (sort_desc existing).
    assert (newest_first existing) as Hsorted.
    { subst existing. destruct (history s);
        [constructor | constructor | apply sort_desc_sorted]. }
    rewrite (sort_desc_sorted_id existing Hsorted).
    rewrite insert_desc_front; [reflexivity |].
    intros x Hx. subst existing. subst stats. cbn [timestamp stats_of].
    destruct (history s) as [| | data] eqn:Hh; try contradiction.
    apply (Hclock data x eq_refl).
    apply (Permutation_in _ (sort_desc_perm data) Hx). }
  rewrite Hload. cbn [fst].
  set (sb := mkState (history sa) (trace sa) (pattern sa)
               (utils.toFileMap (files stats)) (isSingleChunk sa)).
  unfold detached_outputSizes, catch.
  destruct (outputSizes_rest_unchanged E o bundle
              (utils.toFileMap (files stats)) sb sizes Hsizes)
    as [Hok [Hh Hw]].
  { intros k. fold names.
    subst stats. unfold stats_of. cbn [files].
    change (map delta_of_item (items_of sizes0 (utils.toMap names sizes)))
      with (reconcile sizes0 (utils.toMap names sizes)).
    symmetry. apply baseline_or_zero. }
  destruct (outputSizes_rest E o bundle (utils.toFileMap (files stats)) sb)
    as [[[] | e] s5];
    cbn [fst snd] in Hok, Hh, Hw |- *; [| discriminate].
  split; [reflexivity |]. split; [exact Hh | exact Hw].
Qed.

Lemma rebuild_after_save_writes_nothing_witness :
  history (snd (build sample_env options_none
                  (mkOutputOptions (Some "dist") None) sample_bundle
                  (snd (build sample_env options_none
                          (mkOutputOptions (Some "dist") None) sample_bundle
                          (initial options_none (Stored sample_history))))))
  = history (snd (build sample_env options_none
                    (mkOutputOptions (Some "dist") None) sample_bundle
                    (initial options_none (Stored sample_history)))).
Proof.
  assert (history (snd (build sample_env options_none
                          (mkOutputOptions (Some "dist") None) sample_bundle
                          (initial options_none (Stored sample_history))))
          <> history (initial options_none (Stored sample_history))) as Hsaved.
  { vm_compute. discriminate. }
  assert (forall data x,
             history (initial options_none (Stored sample_history))
             = Stored data ->
             In x data -> (timestamp x <= now sample_env)%Z) as Hclock.
  { intros data x Hd Hx. injection Hd as <-. simpl in Hx.
    destruct Hx as [<- | [<- | [<- | []]]]; simpl; lia. }
  destruct (rebuild_after_save_writes_nothing sample_env options_none
              (mkOutputOptions (Some "dist") None) sample_bundle
              (initial options_none (Stored sample_history)) Hsaved Hclock)
    as [_ [Hh _]].
  exact Hh.
Defined.
